(** * Parameter resolution of [starlite/request.py]

    A shallow embedding of the request module: the query-string parser
    ([_query_param_reducer], [parse_query_params]), the body decoder
    ([handle_multipart], [get_request_data]), the connection parameter
    extractor ([get_connection_parameters]), the kwargs builder
    ([get_model_kwargs_from_connection]) and the dependency resolver
    ([resolve_signature_kwargs]).

    Python objects are a small universe [Value]; a [dict] is an
    insertion-ordered association list ([Dict]); exceptions are the [Raise]
    branch of [Result]; the awaited operations (body read, form read,
    provider call) run in the monad [M], which threads a [World] holding the
    trace of I/O events and the request's [_json] slot. *)

From Stdlib Require Import String Ascii List Bool ZArith NArith Lia.
From Stdlib Require Import DecimalString.
Import ListNotations.
Set Warnings "-register-all".
Local Open Scope string_scope.
Local Open Scope list_scope.

(** ** Python values *)

(** The objects that flow through the resolver.  [VConnection] is a reference
    to the connection being resolved (there is exactly one per resolution), so
    binding it under two names aliases one object. *)
Inductive Value : Type :=
| VNone
| VBool (b : bool)
| VInt (z : Z)
| VStr (s : string)
| VList (l : list Value)
| VDict (d : list (string * Value))
| VUploadFile (filename : string)
| VConnection.

(** [bool(v)]: the truth value Python gives an object in [if v:]. *)
Definition truthy (v : Value) : bool :=
  match v with
  | VNone => false
  | VBool b => b
  | VInt z => negb (Z.eqb z 0)
  | VStr s => negb (String.eqb s "")
  | VList l => match l with [] => false | _ => true end
  | VDict d => match d with [] => false | _ => true end
  | VUploadFile _ => true
  | VConnection => true
  end.

(** [v == s] for a [str] (or [str]-valued enum member) [s]. *)
Definition str_eq (v : Value) (s : string) : bool :=
  match v with
  | VStr t => String.eqb t s
  | _ => false
  end.

(** ** Exceptions and results *)

Inductive Exc : Type :=
| ImproperlyConfiguredException (msg : string)
| ValidationException (msg : string)
| JSONDecodeError
| KeyError (key : Value)
| TypeError
| RecursionError
| OtherError (msg : string).

Inductive Result (A : Type) : Type :=
| Ok (a : A)
| Raise (e : Exc).
Arguments Ok {A} a.
Arguments Raise {A} e.

Definition is_configuration_error (e : Exc) : bool :=
  match e with ImproperlyConfiguredException _ => true | _ => false end.

Definition is_validation_error (e : Exc) : bool :=
  match e with ValidationException _ => true | _ => false end.

(** ** Insertion-ordered dictionaries *)

Module Dict.

Definition t (V : Type) : Type := list (string * V).

(** [d.get(k)] *)
Fixpoint get {V : Type} (k : string) (d : t V) : option V :=
  match d with
  | [] => None
  | (k', v) :: rest => if String.eqb k k' then Some v else get k rest
  end.

(** [k in d] *)
Definition mem {V : Type} (k : string) (d : t V) : bool :=
  match get k d with Some _ => true | None => false end.

(** [d[k] = v]: an existing key keeps its position, a new key goes last. *)
Fixpoint set {V : Type} (k : string) (v : V) (d : t V) : t V :=
  match d with
  | [] => [(k, v)]
  | (k', v') :: rest =>
      if String.eqb k k' then (k', v) :: rest else (k', v') :: set k v rest
  end.

Definition keys {V : Type} (d : t V) : list string := map fst d.
Definition values {V : Type} (d : t V) : list V := map snd d.

(** [d[k] = v] for each item in turn, as [d.update(items)] does. *)
Definition set_all {V : Type} (items : list (string * V)) (d : t V) : t V :=
  fold_left (fun acc kv => set (fst kv) (snd kv) acc) items d.

(** [dict(items)] *)
Definition of_items {V : Type} (items : list (string * V)) : t V :=
  set_all items [].

(** [{**d1, **d2}] *)
Definition merge {V : Type} (d1 d2 : t V) : t V :=
  set_all d2 d1.

(** [{k: v for k, v in d.items() if k not in excluded}] *)
Definition without {V W : Type} (d : t V) (excluded : t W) : t V :=
  filter (fun kv => negb (mem (fst kv) excluded)) d.

End Dict.

(** The keys of a sequence of pairs in order of first occurrence. *)
Fixpoint first_seen (seen ks : list string) : list string :=
  match ks with
  | [] => []
  | k :: rest =>
      if existsb (String.eqb k) seen then first_seen seen rest
      else k :: first_seen (seen ++ [k]) rest
  end.

(** ** Query-string parser *)

(** *** [urllib.parse.parse_qsl(qs, keep_blank_values=True)]

    The library function the parser calls, on 8-bit strings: split on [&],
    skip empty segments, split each segment at its first [=], turn [+] into a
    space and undo percent escapes.  An escape is decoded to the byte it
    names; bytes are characters of the 8-bit [string] here. *)

Fixpoint split_on (sep : ascii) (s : string) : list string :=
  match s with
  | EmptyString => [EmptyString]
  | String c rest =>
      if Ascii.eqb c sep then EmptyString :: split_on sep rest
      else match split_on sep rest with
           | [] => [String c EmptyString]
           | w :: ws => String c w :: ws
           end
  end.

(** [s.split('=', 1)] as the part before and, when there is a [=], after it. *)
Fixpoint split_first_eq (s : string) : string * option string :=
  match s with
  | EmptyString => (EmptyString, None)
  | String c rest =>
      if Ascii.eqb c "=" then (EmptyString, Some rest)
      else let '(a, b) := split_first_eq rest in (String c a, b)
  end.

Fixpoint replace_plus (s : string) : string :=
  match s with
  | EmptyString => EmptyString
  | String c rest =>
      String (if Ascii.eqb c "+" then " "%char else c) (replace_plus rest)
  end.

Definition hex_digit (c : ascii) : option N :=
  let n := N_of_ascii c in
  if (48 <=? n)%N && (n <=? 57)%N then Some (n - 48)%N
  else if (65 <=? n)%N && (n <=? 70)%N then Some (n - 55)%N
  else if (97 <=? n)%N && (n <=? 102)%N then Some (n - 87)%N
  else None.

Fixpoint unquote (s : string) : string :=
  match s with
  | EmptyString => EmptyString
  | String c tl1 =>
      if Ascii.eqb c "%" then
        match tl1 with
        | String h (String l rest) =>
            match hex_digit h, hex_digit l with
            | Some a, Some b => String (ascii_of_N (16 * a + b)) (unquote rest)
            | _, _ => String c (unquote tl1)
            end
        | _ => String c (unquote tl1)
        end
      else String c (unquote tl1)
  end.

Definition parse_qsl (qs : string) : list (string * string) :=
  flat_map
    (fun name_value =>
       if String.eqb name_value "" then []
       else
         let '(name, value) := split_first_eq name_value in
         let value := match value with Some v => v | None => "" end in
         [(unquote (replace_plus name), unquote (replace_plus value))])
    (split_on "&" qs).

(** *** The reducer *)

Definition _true_values : list string := ["True"; "true"].
Definition _false_values : list string := ["False"; "false"].

Definition str_in (s : string) (l : list string) : bool :=
  existsb (String.eqb s) l.

(** [[*param]]: the elements of an iterable; unpacking anything else is a
    [TypeError]. *)
Definition unpack (param : Value) : Result (list Value) :=
  match param with
  | VList l => Ok l
  | VDict d => Ok (map (fun kv => VStr (fst kv)) d)
  | VStr s => Ok (map (fun c => VStr (String c EmptyString)) (list_ascii_of_string s))
  | _ => Raise TypeError
  end.

Definition is_str (v : Value) : bool :=
  match v with VStr _ => true | _ => false end.

Definition is_list (v : Value) : bool :=
  match v with VList _ => true | _ => false end.

Definition _query_param_reducer
    (acc : Dict.t Value) (cur : string * string) : Result (Dict.t Value) :=
  let '(key, value) := cur in
  let value :=
    if str_in value _true_values then VBool true
    else if str_in value _false_values then VBool false
    else VStr value in
  let param := match Dict.get key acc with Some p => p | None => VNone end in
  if truthy param then
    if is_str param then Ok (Dict.set key (VList [param; value]) acc)
    else
      match unpack param with
      | Ok elements => Ok (Dict.set key (VList (elements ++ [value])) acc)
      | Raise e => Raise e
      end
  else Ok (Dict.set key value acc).

(** [functools.reduce(f, items, init)] for a reducer that may raise. *)
Fixpoint reduce {A B : Type} (f : A -> B -> Result A) (items : list B) (init : A)
    : Result A :=
  match items with
  | [] => Ok init
  | x :: rest =>
      match f init x with
      | Ok acc => reduce f rest acc
      | Raise e => Raise e
      end
  end.

(** [parse_query_params]: [scope_query_string] is [connection.scope["query_string"]],
    [None] when the scope has no such key (the [KeyError] the function
    catches).  A [bytes] query string is decoded as Latin-1, which leaves
    every 8-bit character as it is. *)
Definition parse_query_params_of (scope_query_string : option string)
    : Result (Dict.t Value) :=
  match scope_query_string with
  | Some qs => reduce _query_param_reducer (parse_qsl qs) []
  | None => Ok []
  end.

(** ** Field descriptors, connections, signature models *)

(** [field.type_], as far as the module looks at it: [is UploadFile] or not. *)
Inductive PyType : Type :=
| UploadFile
| OtherType (name : string).

Definition is_UploadFile (t : PyType) : bool :=
  match t with UploadFile => true | OtherType _ => false end.

(** pydantic's shape constants. *)
Definition SHAPE_SINGLETON : Z := 1.
Definition SHAPE_LIST : Z := 2.

(** A pydantic [ModelField]: [default] is [None] for the [Undefined]
    sentinel; [extra] is [field.field_info.extra]. *)
Record ModelField : Type := {
  shape : Z;
  type_ : PyType;
  default : option Value;
  extra : Dict.t Value
}.

(** The class of the connection object, as [isinstance] sees it. *)
Inductive ConnectionKind : Type :=
| IsRequest
| IsWebSocket
| IsHTTPConnection.

(** An entry of [FormData.multi_items()]. *)
Inductive FormValue : Type :=
| FormStr (s : string)
| FormFile (filename : string).

Record Connection : Type := {
  kind : ConnectionKind;
  method : string;
  query_string : option string;
  path_params : Dict.t Value;
  headers : list (string * string);
  cookies : Dict.t Value;
  app_state : Dict.t Value;
  body : string;
  form : list (string * FormValue)
}.

(** ** The effect monad *)

Inductive Event : Type :=
| ReadBody
| ReadForm
| External (label : string).

(** What the awaited operations can change: the I/O done so far, oldest
    first, and the [_json] slot of the request. *)
Record World : Type := {
  io_trace : list Event;
  _json : option Value
}.

Definition M (A : Type) : Type := World -> Result A * World.

Definition ret {A : Type} (a : A) : M A := fun w => (Ok a, w).

Definition raise {A : Type} (e : Exc) : M A := fun w => (Raise e, w).

Definition bind {A B : Type} (m : M A) (k : A -> M B) : M B :=
  fun w =>
    match m w with
    | (Ok a, w') => k a w'
    | (Raise e, w') => (Raise e, w')
    end.

Definition lift {A : Type} (r : Result A) : M A := fun w => (r, w).

Notation "x <- m ;; k" := (bind m (fun x => k))
  (at level 61, m at next level, right associativity).

Definition emit (ev : Event) : M unit :=
  fun w => (Ok tt, {| io_trace := io_trace w ++ [ev]; _json := _json w |}).

Definition store_json (v : Value) : M unit :=
  fun w => (Ok tt, {| io_trace := io_trace w; _json := Some v |}).

(** [await request.body()] and [await request.form()]. *)
Definition request_body (request : Connection) : M string :=
  _ <- emit ReadBody ;; ret (body request).

Definition request_form (request : Connection) : M (list (string * FormValue)) :=
  _ <- emit ReadForm ;; ret (form request).

(** The signature model of a handler or of a provider: its [__fields__] and
    the validated-model constructor followed by [.dict()], an external
    collaborator that may reject the keyword arguments. *)
Record SignatureModel : Type := {
  __fields__ : Dict.t ModelField;
  validated_dict : Dict.t Value -> Result (Dict.t Value)
}.

(** A [Provide]: [get_signature_model(provider)] and the awaited call. *)
Record Provide : Type := {
  get_signature_model : SignatureModel;
  call : Dict.t Value -> M Value
}.

(** [str.lower()] on ASCII. *)
Definition lower_ascii (c : ascii) : ascii :=
  let n := N_of_ascii c in
  if (65 <=? n)%N && (n <=? 90)%N then ascii_of_N (n + 32) else c.

Fixpoint lower (s : string) : string :=
  match s with
  | EmptyString => EmptyString
  | String c rest => String (lower_ascii c) (lower rest)
  end.

(** [f"{v}"], for the values an alias can be. *)
Definition format_value (v : Value) : string :=
  match v with
  | VStr s => s
  | VNone => "None"
  | VBool true => "True"
  | VBool false => "False"
  | VInt z => NilZero.string_of_int (Z.to_int z)
  | _ => "<object>"
  end.

(** [source[key]] on a mapping with [str] keys: a hashable key that is not
    there is a [KeyError], an unhashable one a [TypeError]. *)
Definition subscript (source : Dict.t Value) (key : Value) : Result Value :=
  match key with
  | VStr s =>
      match Dict.get s source with
      | Some v => Ok v
      | None => Raise (KeyError key)
      end
  | VList _ | VDict _ => Raise TypeError
  | _ => Raise (KeyError key)
  end.

Definition nonempty {V : Type} (d : Dict.t V) : bool :=
  match d with [] => false | _ => true end.

(** ** The request module *)

Section Request.

(** [orjson.loads]: [None] stands for [JSONDecodeError]. *)
Variable loads : string -> option Value.

(** The members of [starlite.enums] the module compares with; both enums
    are [str] enums, so a member is its string. *)
Variable HttpMethod_GET : string.
Variable RequestEncodingType_JSON : string.
Variable RequestEncodingType_MULTI_PART : string.

(** *** Body decoder *)

(** The value of one form entry: an upload is kept, a string is
    JSON-decoded under [suppress(JSONDecodeError)]. *)
Definition form_entry_value (value : FormValue) : Value :=
  match value with
  | FormFile f => VUploadFile f
  | FormStr s =>
      match loads s with
      | Some decoded => decoded
      | None => VStr s
      end
  end.

(** One turn of the loop over [form_data.multi_items()]. *)
Definition multipart_step
    (values_dict : Dict.t Value) (item : string * FormValue) : Dict.t Value :=
  let '(key, value) := item in
  let value := form_entry_value value in
  let existing :=
    match Dict.get key values_dict with Some v => v | None => VNone end in
  if truthy existing then
    match existing with
    | VList l => Dict.set key (VList (l ++ [value])) values_dict
    | _ => Dict.set key (VList [existing; value]) values_dict
    end
  else Dict.set key value values_dict.

Definition multipart_values (form_data : list (string * FormValue))
    : Dict.t Value :=
  fold_left multipart_step form_data [].

Definition handle_multipart
    (media_type : Value) (form_data : list (string * FormValue))
    (field : ModelField) : Value :=
  let values_dict := multipart_values form_data in
  if str_eq media_type RequestEncodingType_MULTI_PART then
    if Z.eqb (shape field) SHAPE_LIST then VList (Dict.values values_dict)
    else
      if Z.eqb (shape field) SHAPE_SINGLETON
         && is_UploadFile (type_ field) && nonempty values_dict
      then
        match Dict.values values_dict with
        | first :: _ => first
        | [] => VDict values_dict
        end
      else VDict values_dict
  else VDict values_dict.

Definition get_request_data (request : Connection) (field : ModelField)
    : M Value :=
  if String.eqb (lower (method request)) HttpMethod_GET then
    raise (ImproperlyConfiguredException
             "'data' kwarg is unsupported for GET requests")
  else
    let media_type :=
      match Dict.get "media_type" (extra field) with
      | Some m => m
      | None => VNone
      end in
    if negb (truthy media_type) || str_eq media_type RequestEncodingType_JSON
    then
      body <- request_body request ;;
      match loads body with
      | Some json_data => _ <- store_json json_data ;; ret json_data
      | None => raise JSONDecodeError
      end
    else
      form_data <- request_form request ;;
      ret (handle_multipart media_type form_data field).

(** *** Connection parameter extractor *)

Inductive ExtraSource : Type :=
| FromQuery
| FromHeader
| FromCookie.

(** ["k" in extra_keys and extra["k"]] *)
Definition declared (k : string) (extra : Dict.t Value) : bool :=
  match Dict.get k extra with
  | Some alias => truthy alias
  | None => false
  end.

Definition alias_of (k : string) (extra : Dict.t Value) : Value :=
  match Dict.get k extra with Some alias => alias | None => VNone end.

(** The [if]/[elif] chain that sets [parameter_name] and [source]. *)
Definition select_extra (extra : Dict.t Value) : option (Value * ExtraSource) :=
  if declared "query" extra then Some (alias_of "query" extra, FromQuery)
  else if declared "header" extra then Some (alias_of "header" extra, FromHeader)
  else if declared "cookie" extra then Some (alias_of "cookie" extra, FromCookie)
  else None.

(** The mapping [source] is set to. *)
Definition source_mapping
    (connection : Connection) (query_params header_params : Dict.t Value)
    (selected : ExtraSource) : Dict.t Value :=
  match selected with
  | FromQuery => query_params
  | FromHeader => header_params
  | FromCookie => cookies connection
  end.

(** The block under [if parameter_name and source:], with what follows it. *)
Definition from_source
    (extra : Dict.t Value) (default : Value)
    (parameter_name : Value) (source : Dict.t Value) : Result Value :=
  if truthy parameter_name && nonempty source then
    match Dict.get "required" extra with
    | None => Raise (KeyError (VStr "required"))
    | Some parameter_is_required =>
        match subscript source parameter_name with
        | Ok v => Ok v
        | Raise (KeyError _) =>
            if truthy parameter_is_required && negb (truthy default) then
              Raise (ValidationException
                       ("Missing required parameter "
                          ++ format_value parameter_name))
            else Ok default
        | Raise e => Raise e
        end
    end
  else Ok default.

Definition get_connection_parameters
    (connection : Connection) (field_name : string) (field : ModelField)
    (query_params header_params : Dict.t Value) : Result Value :=
  match Dict.get field_name (path_params connection) with
  | Some v => Ok v
  | None =>
      match Dict.get field_name query_params with
      | Some v => Ok v
      | None =>
          let default :=
            match default field with Some d => d | None => VNone end in
          if nonempty (extra field) then
            match select_extra (extra field) with
            | Some (parameter_name, selected) =>
                from_source (extra field) default parameter_name
                  (source_mapping connection query_params header_params
                     selected)
            | None => Ok default
            end
          else Ok default
      end
  end.

(** *** Kwargs builder *)

Definition parse_query_params (connection : Connection)
    : Result (Dict.t Value) :=
  parse_query_params_of (query_string connection).

(** [dict(connection.headers.items())] *)
Definition header_dict (connection : Connection) : Dict.t Value :=
  Dict.of_items (map (fun kv => (fst kv, VStr (snd kv))) (headers connection)).

(** The names the loop dispatches on before anything else. *)
Definition reserved_names : list string :=
  ["state"; "headers"; "cookies"; "query"; "request"; "socket"; "data"].

(** The value one turn of the loop binds to [field_name]. *)
Definition field_value
    (connection : Connection) (query_params header_params : Dict.t Value)
    (field_name : string) (field : ModelField) : M Value :=
  if String.eqb field_name "state" then ret (VDict (app_state connection))
  else if String.eqb field_name "headers" then ret (VDict header_params)
  else if String.eqb field_name "cookies" then ret (VDict (cookies connection))
  else if String.eqb field_name "query" then ret (VDict query_params)
  else if String.eqb field_name "request" then
    match kind connection with
    | IsRequest => ret VConnection
    | _ => raise (ImproperlyConfiguredException
                    "The 'request' kwarg is not supported with websocket handlers")
    end
  else if String.eqb field_name "socket" then
    match kind connection with
    | IsWebSocket => ret VConnection
    | _ => raise (ImproperlyConfiguredException
                    "The 'socket' kwarg is not supported with http handlers")
    end
  else if String.eqb field_name "data" then
    match kind connection with
    | IsRequest => get_request_data connection field
    | _ => raise (ImproperlyConfiguredException
                    "The 'data' kwarg is not supported with websocket handlers")
    end
  else
    lift (get_connection_parameters connection field_name field
            query_params header_params).

(** The value the builder binds to one field on its own, with the query
    and header mappings of the connection. *)
Definition connection_value
    (connection : Connection) (field_name : string) (field : ModelField)
    : M Value :=
  query_params <- lift (parse_query_params connection) ;;
  field_value connection query_params (header_dict connection)
    field_name field.

(** The loop over [fields.items()], from the [kwargs] built so far. *)
Fixpoint bind_fields
    (connection : Connection) (query_params header_params : Dict.t Value)
    (fields : Dict.t ModelField) (kwargs : Dict.t Value) : M (Dict.t Value) :=
  match fields with
  | [] => ret kwargs
  | (field_name, field) :: rest =>
      v <- field_value connection query_params header_params field_name field ;;
      bind_fields connection query_params header_params rest
        (Dict.set field_name v kwargs)
  end.

Definition get_model_kwargs_from_connection
    (connection : Connection) (fields : Dict.t ModelField)
    : M (Dict.t Value) :=
  query_params <- lift (parse_query_params connection) ;;
  let header_params := header_dict connection in
  bind_fields connection query_params header_params fields [].

(** *** Dependency resolver *)

(** The loop over [providers.items()]; [resolve] is the recursive call of
    [resolve_signature_kwargs] on a provider's signature model. *)
Fixpoint resolve_dependencies
    (resolve : SignatureModel -> M (Dict.t Value))
    (fields : Dict.t ModelField) (providers : Dict.t Provide)
    (dependencies : Dict.t Value) : M (Dict.t Value) :=
  match providers with
  | [] => ret dependencies
  | (key, provider) :: rest =>
      if Dict.mem key fields then
        let provider_signature_model := get_signature_model provider in
        provider_kwargs <- resolve provider_signature_model ;;
        arguments <- lift (validated_dict provider_signature_model provider_kwargs) ;;
        v <- call provider arguments ;;
        resolve_dependencies resolve fields rest (Dict.set key v dependencies)
      else resolve_dependencies resolve fields rest dependencies
  end.

(** [depth] bounds the nesting of recursive calls, as the interpreter's
    recursion limit does; running out of it is the [RecursionError]. *)
Fixpoint resolve_signature_kwargs
    (depth : nat) (signature_model : SignatureModel)
    (connection : Connection) (providers : Dict.t Provide)
    : M (Dict.t Value) :=
  match depth with
  | O => raise RecursionError
  | S depth' =>
      let fields := __fields__ signature_model in
      dependencies <-
        resolve_dependencies
          (fun provider_signature_model =>
             resolve_signature_kwargs depth' provider_signature_model
               connection providers)
          fields providers [] ;;
      connection_kwargs <-
        get_model_kwargs_from_connection connection
          (Dict.without fields dependencies) ;;
      ret (Dict.merge connection_kwargs dependencies)
  end.

End Request.

(** ** Notions used to state properties *)

(** What the reducer stores for a raw value: the boolean for the four
    literals, the string otherwise. *)
Definition query_value (value : string) : Value :=
  if str_in value _true_values then VBool true
  else if str_in value _false_values then VBool false
  else VStr value.


(** The values given to [key] in a sequence of pairs, in order. *)
Definition values_for {A : Type} (key : string) (pairs : list (string * A))
    : list A :=
  map snd (filter (fun kv => String.eqb key (fst kv)) pairs).

(** One value stays as it is, several become the list of them. *)
Definition collected (vs : list Value) : option Value :=
  match vs with
  | [] => None
  | [v] => Some v
  | _ => Some (VList vs)
  end.

(** A value that is truthy and not a list. *)
Definition scalar (v : Value) : bool := truthy v && negb (is_list v).

(** A single entry of a parsed query mapping. *)
Definition query_item (v : Value) : bool :=
  match v with
  | VBool _ => true
  | VStr s => negb (str_in s _true_values) && negb (str_in s _false_values)
  | _ => false
  end.

(** The values a parsed query mapping can hold: an item, or a list of at
    least two items. *)
Definition query_shape (v : Value) : bool :=
  match v with
  | VList (a :: b :: l) => forallb query_item (a :: b :: l)
  | v => query_item v
  end.

(** The last value given to [key] in a sequence of pairs. *)
Definition last_for {A : Type} (key : string) (pairs : list (string * A))
    : option A :=
  match rev (values_for key pairs) with
  | v :: _ => Some v
  | [] => None
  end.

(** A mapping that holds, for each key, what [collected] makes of the
    values the pairs [seen] give it. *)
Definition collects {A : Type} (decode : A -> Value) (acc : Dict.t Value)
    (seen : list (string * A)) : Prop :=
  forall key, Dict.get key acc
              = collected (map decode (values_for key seen)).

(** ** Sample connections, fields and providers *)

Module Samples.

(** A decoder that accepts decimal digit strings of length one and rejects
    the rest; enough to tell a decoded value from a raw string. *)
Definition digit_loads (s : string) : option Value :=
  match s with
  | String c EmptyString =>
      let n := N_of_ascii c in
      if (48 <=? n)%N && (n <=? 57)%N then Some (VInt (Z.of_N (n - 48)))
      else None
  | _ => None
  end.


Definition GET : string := "get".
Definition JSON : string := "application/json".
Definition MULTI_PART : string := "multipart/form-data".
Definition URL_ENCODED : string := "application/x-www-form-urlencoded".

Definition connection_of
    (k : ConnectionKind) (m : string) (qs : string) : Connection :=
  {| kind := k; method := m; query_string := Some qs;
     path_params := []; headers := [("h", "from-header")];
     cookies := [("c", VStr "from-cookie")]; app_state := [];
     body := "7"; form := [("x", FormStr "1"); ("y", FormStr "raw")] |}.

Definition websocket : Connection := connection_of IsWebSocket "GET" "".

Definition with_body (c : Connection) (b : string) : Connection :=
  {| kind := kind c; method := method c; query_string := query_string c;
     path_params := path_params c; headers := headers c;
     cookies := cookies c; app_state := app_state c;
     body := b; form := form c |}.

Definition with_path (c : Connection) (p : Dict.t Value) : Connection :=
  {| kind := kind c; method := method c; query_string := query_string c;
     path_params := p; headers := headers c;
     cookies := cookies c; app_state := app_state c;
     body := body c; form := form c |}.

Definition plain_field : ModelField :=
  {| shape := SHAPE_SINGLETON; type_ := OtherType "str";
     default := None; extra := [] |}.

(** [Parameter(query="q", default=d)]: the alias [q], [required] left at
    its default [True]. *)
Definition query_alias_field (d : option Value) : ModelField :=
  {| shape := SHAPE_SINGLETON; type_ := OtherType "int"; default := d;
     extra := [("header", VNone); ("cookie", VNone); ("query", VStr "q");
               ("required", VBool true)] |}.

Definition media_field (sh : Z) (t : PyType) (media : string) : ModelField :=
  {| shape := sh; type_ := t; default := None;
     extra := [("media_type", VStr media)] |}.

(** A field with the given extras and no default. *)
Definition extras_field (e : Dict.t Value) : ModelField :=
  {| shape := SHAPE_SINGLETON; type_ := OtherType "str"; default := None;
     extra := e |}.

Definition empty_world : World := {| io_trace := []; _json := None |}.

(** A provider without parameters that returns a constant. *)
Definition constant_provider (result : Value) : Provide :=
  {| get_signature_model :=
       {| __fields__ := []; validated_dict := fun kwargs => Ok kwargs |};
     call := fun _ => ret result |}.

Definition model_of (fields : Dict.t ModelField) : SignatureModel :=
  {| __fields__ := fields; validated_dict := fun kwargs => Ok kwargs |}.

(** A provider with one parameter that returns its keyword arguments. *)
Definition echo_provider (parameter : string) : Provide :=
  {| get_signature_model := model_of [(parameter, plain_field)];
     call := fun arguments => ret (VDict arguments) |}.

(** A handler with a query parameter [a], a [data] field and a dependency
    [dep], and a provider table that has a provider named [data]. *)
Definition handler_model : SignatureModel :=
  model_of [("a", plain_field); ("data", plain_field); ("dep", plain_field)].

Definition provider_table : Dict.t Provide :=
  [("unused", constant_provider (VInt 0));
   ("data", constant_provider (VStr "provided"));
   ("dep", constant_provider (VInt 1))].

End Samples.

(** ** Facts about dictionaries *)

Section DictFacts.

Context {V : Type}.
Implicit Types (d : Dict.t V) (k : string) (v : V).

Lemma get_set_same k v d : Dict.get k (Dict.set k v d) = Some v.
Proof.
  induction d as [|[k' v'] rest IH]; simpl.
  - now rewrite String.eqb_refl.
  - destruct (String.eqb k k') eqn:E; simpl; rewrite E; auto.
Qed.

Lemma get_set_other k k' v d :
  k <> k' -> Dict.get k (Dict.set k' v d) = Dict.get k d.
Proof.
  intros Hne. induction d as [|[k0 v0] rest IH]; simpl.
  - apply String.eqb_neq in Hne. now rewrite Hne.
  - destruct (String.eqb k' k0) eqn:E; simpl.
    + apply String.eqb_eq in E. subst k0.
      apply String.eqb_neq in Hne. now rewrite Hne.
    + now rewrite IH.
Qed.

Lemma mem_in_keys k d : Dict.mem k d = true <-> In k (Dict.keys d).
Proof.
  unfold Dict.mem. induction d as [|[k' v'] rest IH]; simpl.
  - split; [discriminate | tauto].
  - destruct (String.eqb k k') eqn:E.
    + apply String.eqb_eq in E. subst. split; auto.
    + apply String.eqb_neq in E. rewrite IH. split; [tauto|].
      intros [H|H]; [congruence | assumption].
Qed.

Lemma mem_false_not_in k d : Dict.mem k d = false <-> ~ In k (Dict.keys d).
Proof.
  rewrite <- mem_in_keys. destruct (Dict.mem k d); split; congruence.
Qed.

Lemma keys_set k v d :
  Dict.keys (Dict.set k v d)
  = if Dict.mem k d then Dict.keys d else Dict.keys d ++ [k].
Proof.
  unfold Dict.mem. induction d as [|[k' v'] rest IH]; simpl; auto.
  destruct (String.eqb k k') eqn:E; simpl; auto.
  rewrite IH. now destruct (Dict.get k rest).
Qed.

Lemma in_keys_set k k' v d :
  In k (Dict.keys (Dict.set k' v d)) <-> k = k' \/ In k (Dict.keys d).
Proof.
  rewrite keys_set. destruct (Dict.mem k' d) eqn:E.
  - apply mem_in_keys in E. split; [tauto|]. intros [->|H]; auto.
  - rewrite in_app_iff. simpl. split; intros H; intuition congruence.
Qed.

Lemma NoDup_keys_set k v d :
  NoDup (Dict.keys d) -> NoDup (Dict.keys (Dict.set k v d)).
Proof.
  intros Hnd. rewrite keys_set. destruct (Dict.mem k d) eqn:E; auto.
  apply mem_false_not_in in E.
  apply NoDup_app; auto.
  - constructor; [simpl; tauto | constructor].
  - intros x Hx [<-|[]]. contradiction.
Qed.

Lemma in_keys_set_all items : forall d k,
  In k (Dict.keys (Dict.set_all items d))
  <-> In k (Dict.keys d) \/ In k (map fst items).
Proof.
  induction items as [|[k0 v0] rest IH]; intros d k; simpl.
  - tauto.
  - unfold Dict.set_all in *. simpl. rewrite IH, in_keys_set. simpl.
    split; intros H; intuition congruence.
Qed.

Lemma NoDup_keys_set_all items : forall d,
  NoDup (Dict.keys d) -> NoDup (Dict.keys (Dict.set_all items d)).
Proof.
  induction items as [|[k0 v0] rest IH]; intros d Hnd; simpl; auto.
  apply IH. now apply NoDup_keys_set.
Qed.

Lemma get_set_all_absent items : forall d k,
  ~ In k (map fst items) -> Dict.get k (Dict.set_all items d) = Dict.get k d.
Proof.
  induction items as [|[k0 v0] rest IH]; intros d k Hk; simpl in *; auto.
  rewrite IH by tauto. apply get_set_other. intros ->. tauto.
Qed.

Lemma get_set_all_present items : forall d k v,
  NoDup (map fst items) -> Dict.get k items = Some v ->
  Dict.get k (Dict.set_all items d) = Some v.
Proof.
  induction items as [|[k0 v0] rest IH]; intros d k v Hnd Hget; simpl in *.
  - discriminate.
  - inversion Hnd as [|? ? Hnotin Hnd']; subst.
    destruct (String.eqb k k0) eqn:E.
    + apply String.eqb_eq in E. subst k0. injection Hget as ->.
      rewrite get_set_all_absent by assumption. apply get_set_same.
    + now apply IH.
Qed.

Lemma in_keys_merge d1 d2 k :
  In k (Dict.keys (Dict.merge d1 d2))
  <-> In k (Dict.keys d1) \/ In k (Dict.keys d2).
Proof. apply in_keys_set_all. Qed.

Lemma NoDup_keys_merge d1 d2 :
  NoDup (Dict.keys d1) -> NoDup (Dict.keys (Dict.merge d1 d2)).
Proof. apply NoDup_keys_set_all. Qed.

Lemma get_merge_right d1 d2 k v :
  NoDup (Dict.keys d2) -> Dict.get k d2 = Some v ->
  Dict.get k (Dict.merge d1 d2) = Some v.
Proof. apply get_set_all_present. Qed.

End DictFacts.

Lemma in_keys_without {V W : Type} (d : Dict.t V) (excluded : Dict.t W) k :
  In k (Dict.keys (Dict.without d excluded))
  <-> In k (Dict.keys d) /\ ~ In k (Dict.keys excluded).
Proof.
  rewrite <- (mem_false_not_in k excluded).
  unfold Dict.without, Dict.keys. induction d as [|[k' v'] rest IH]; simpl.
  - tauto.
  - destruct (Dict.mem k' excluded) eqn:E; simpl; rewrite IH.
    + split; [tauto|]. intros [[->|H] Hm]; [congruence | tauto].
    + split; [|tauto]. intros [->|H]; tauto.
Qed.

Lemma existsb_keys {V : Type} (k : string) (d : Dict.t V) :
  existsb (String.eqb k) (Dict.keys d) = Dict.mem k d.
Proof.
  unfold Dict.mem. induction d as [|[k' v'] rest IH]; simpl; auto.
  destruct (String.eqb k k'); simpl; auto.
Qed.

(** ** Properties of the query-string parser *)



(** A key seen again after a non-empty string gets the two-element list. *)
Lemma reducer_promotes_nonempty_str acc key old value :
  Dict.get key acc = Some (VStr old) -> old <> "" ->
  str_in value _true_values = false -> str_in value _false_values = false ->
  _query_param_reducer acc (key, value)
  = Ok (Dict.set key (VList [VStr old; VStr value]) acc).
Proof.
  intros Hget Hne Ht Hf. unfold _query_param_reducer.
  rewrite Hget, Ht, Hf. simpl.
  apply String.eqb_neq in Hne. now rewrite Hne.
Qed.

(** A key seen again after a non-empty list has the value appended. *)
Lemma reducer_appends_to_list acc key x l value :
  Dict.get key acc = Some (VList (x :: l)) ->
  str_in value _true_values = false -> str_in value _false_values = false ->
  _query_param_reducer acc (key, value)
  = Ok (Dict.set key (VList ((x :: l) ++ [VStr value])) acc).
Proof.
  intros Hget Ht Hf. unfold _query_param_reducer. now rewrite Hget, Ht, Hf.
Qed.

(** C2. The claim: a key seen again always has its single value promoted to
    a two-element list, or its list extended.  The parser does so for
    [a=1&a=2]; when the value seen first is the empty string or [false] it
    is overwritten, and when it is [true] the reducer raises a [TypeError]. *)
Theorem C2_repeated_key_after_blank_or_boolean :
  parse_query_params (Samples.connection_of IsRequest "POST" "a=1&a=2")
    = Ok [("a", VList [VStr "1"; VStr "2"])]
  /\ parse_query_params (Samples.connection_of IsRequest "POST" "a=&a=2")
    = Ok [("a", VStr "2")]
  /\ parse_query_params (Samples.connection_of IsRequest "POST" "a=false&a=2")
    = Ok [("a", VStr "2")]
  /\ parse_query_params (Samples.connection_of IsRequest "POST" "a=true&a=2")
    = Raise TypeError.
Proof. repeat split; reflexivity. Qed.

(** ** Properties of the body decoder *)

Section BodyDecoderFacts.

Variable loads : string -> option Value.
Variables GET JSON MULTI_PART : string.

Lemma keys_multipart_step values_dict key value :
  Dict.keys (multipart_step loads values_dict (key, value))
  = if Dict.mem key values_dict then Dict.keys values_dict
    else Dict.keys values_dict ++ [key].
Proof.
  unfold multipart_step.
  destruct (truthy _); [destruct (match Dict.get key values_dict with
                                  | Some v => v | None => VNone end)|];
    apply keys_set.
Qed.

Lemma keys_multipart_fold form_data : forall values_dict,
  Dict.keys (fold_left (multipart_step loads) form_data values_dict)
  = Dict.keys values_dict
      ++ first_seen (Dict.keys values_dict) (map fst form_data).
Proof.
  induction form_data as [|[key value] rest IH]; intros values_dict;
    cbn [fold_left map fst first_seen].
  - now rewrite app_nil_r.
  - rewrite IH, keys_multipart_step, existsb_keys.
    destruct (Dict.mem key values_dict); auto. now rewrite <- app_assoc.
Qed.

(** C6. The accumulated mapping has its keys in first-seen order.  For
    multipart media a list-shaped field gets the mapping's values, a
    singleton field of the uploaded-file type gets the first value when
    there is one, and every other case, any other media type included,
    gets the mapping itself. *)
Theorem C6_multipart_shaping media_type form_data field :
  let values_dict := multipart_values loads form_data in
  let result := handle_multipart loads MULTI_PART media_type form_data field in
  Dict.keys values_dict = first_seen [] (map fst form_data)
  /\ (str_eq media_type MULTI_PART = true -> shape field = SHAPE_LIST ->
      result = VList (Dict.values values_dict))
  /\ (str_eq media_type MULTI_PART = true -> shape field = SHAPE_SINGLETON ->
      type_ field = UploadFile ->
      forall key first rest, values_dict = (key, first) :: rest ->
      result = first)
  /\ (str_eq media_type MULTI_PART = true -> shape field <> SHAPE_LIST ->
      shape field <> SHAPE_SINGLETON \/ type_ field <> UploadFile
        \/ values_dict = [] ->
      result = VDict values_dict)
  /\ (str_eq media_type MULTI_PART = false -> result = VDict values_dict).
Proof.
  intros values_dict result. subst result. unfold handle_multipart.
  fold values_dict. split; [|repeat split].
  - apply (keys_multipart_fold form_data []).
  - intros -> ->. reflexivity.
  - intros -> Hs Ht key first rest Hv. rewrite Hs, Ht, Hv. reflexivity.
  - intros -> Hl Hother. apply Z.eqb_neq in Hl. rewrite Hl.
    destruct Hother as [Hs|[Ht|Hv]].
    + apply Z.eqb_neq in Hs. now rewrite Hs.
    + destruct (type_ field); [congruence|]. simpl.
      now rewrite andb_false_r.
    + rewrite Hv. simpl. now rewrite andb_false_r.
  - intros ->. reflexivity.
Qed.

(** C7. A form string that does not decode is kept as it is, and the form
    branch of [get_request_data] returns whatever [loads] does; a body
    that does not decode under an unset or JSON media type raises
    [JSONDecodeError] out of [get_request_data]. *)
Theorem C7_form_decode_swallowed_body_decode_fatal :
  (forall s, loads s = None -> form_entry_value loads (FormStr s) = VStr s)
  /\ (forall key s, loads s = None ->
      multipart_values loads [(key, FormStr s)] = [(key, VStr s)])
  /\ (forall request field media_type w,
      lower (method request) <> GET ->
      Dict.get "media_type" (extra field) = Some media_type ->
      truthy media_type = true -> str_eq media_type JSON = false ->
      get_request_data loads GET JSON MULTI_PART request field w
      = (Ok (handle_multipart loads MULTI_PART media_type (form request) field),
         {| io_trace := io_trace w ++ [ReadForm]; _json := _json w |}))
  /\ (forall request field w,
      lower (method request) <> GET ->
      (forall media_type,
         Dict.get "media_type" (extra field) = Some media_type ->
         truthy media_type = false \/ str_eq media_type JSON = true) ->
      loads (body request) = None ->
      fst (get_request_data loads GET JSON MULTI_PART request field w)
      = Raise JSONDecodeError).
Proof.
  split; [|split; [|split]].
  - intros s H. simpl. now rewrite H.
  - intros key s H. unfold multipart_values. simpl. now rewrite H.
  - intros request field media_type w Hm Hget Ht Hj.
    unfold get_request_data. apply String.eqb_neq in Hm.
    rewrite Hm, Hget, Ht, Hj. reflexivity.
  - intros request field w Hm Hmedia Hl.
    unfold get_request_data. apply String.eqb_neq in Hm. rewrite Hm.
    assert (Hc : negb (truthy match Dict.get "media_type" (extra field) with
                              | Some m => m | None => VNone end)
                 || str_eq match Dict.get "media_type" (extra field) with
                           | Some m => m | None => VNone end JSON = true).
    { destruct (Dict.get "media_type" (extra field)) as [m|]; auto.
      destruct (Hmedia m eq_refl) as [H|H]; rewrite H; auto.
      apply orb_true_r. }
    rewrite Hc. unfold bind, request_body, bind, emit, ret. simpl.
    now rewrite Hl.
Qed.

Lemma field_value_pure connection query_params header_params field_name field w :
  field_name <> "data" ->
  snd (field_value loads GET JSON MULTI_PART connection query_params
         header_params field_name field w) = w.
Proof.
  intros Hne. unfold field_value.
  repeat match goal with
         | |- context [String.eqb field_name ?s] =>
             let E := fresh "E" in
             destruct (String.eqb field_name s) eqn:E;
             [try reflexivity
             | try (apply String.eqb_eq in E; congruence)]
         end;
    try (destruct (kind connection); reflexivity).
  apply String.eqb_eq in E5. congruence.
Qed.

Lemma get_request_data_GET request field w :
  lower (method request) = GET ->
  get_request_data loads GET JSON MULTI_PART request field w
  = (Raise (ImproperlyConfiguredException
              "'data' kwarg is unsupported for GET requests"), w).
Proof.
  intros H. unfold get_request_data. apply String.eqb_eq in H.
  now rewrite H.
Qed.

Lemma bind_fields_GET_data request query_params header_params fields :
  forall kwargs w,
  kind request = IsRequest -> lower (method request) = GET ->
  Dict.mem "data" fields = true ->
  exists e,
    bind_fields loads GET JSON MULTI_PART request query_params header_params
      fields kwargs w = (Raise e, w).
Proof.
  induction fields as [|[field_name field] rest IH];
    intros kwargs w Hk Hm Hmem.
  - discriminate.
  - cbn [bind_fields]. unfold bind.
    destruct (String.eqb "data" field_name) eqn:E.
    + apply String.eqb_eq in E. subst field_name.
      unfold field_value. simpl. rewrite Hk.
      rewrite get_request_data_GET by assumption. eauto.
    + assert (Hne : field_name <> "data").
      { intros ->. now rewrite String.eqb_refl in E. }
      pose proof (field_value_pure request query_params header_params
                    field_name field w Hne) as Hpure.
      destruct (field_value _ _ _ _ _ _ _ _ _ w) as [[v|e] w1];
        simpl in Hpure; subst w1.
      * apply IH; auto. unfold Dict.mem in *. cbn [Dict.get] in Hmem.
        now rewrite E in Hmem.
      * eauto.
Qed.

(** C5. On a request whose method is GET, [get_request_data] raises the
    configuration error and leaves the world as it found it: no body or
    form read has happened.  So does the whole kwargs builder on a field
    set with a [data] field: it never returns, and no I/O is done. *)
Theorem C5_get_data_is_configuration_error request field w :
  lower (method request) = GET ->
  (exists msg,
     get_request_data loads GET JSON MULTI_PART request field w
     = (Raise (ImproperlyConfiguredException msg), w)
     /\ is_configuration_error (ImproperlyConfiguredException msg) = true
     /\ is_validation_error (ImproperlyConfiguredException msg) = false)
  /\ (kind request = IsRequest ->
      forall fields, Dict.mem "data" fields = true ->
      exists e,
        get_model_kwargs_from_connection loads GET JSON MULTI_PART
          request fields w = (Raise e, w)).
Proof.
  intros Hm. split.
  - eexists. rewrite get_request_data_GET by assumption. auto.
  - intros Hk fields Hmem. unfold get_model_kwargs_from_connection, bind, lift.
    destruct (parse_query_params request) as [query_params|e]; [|eauto].
    now apply bind_fields_GET_data.
Qed.

End BodyDecoderFacts.

(** ** Properties of the connection parameter extractor *)

Section ExtractorFacts.

Implicit Types (connection : Connection) (field : ModelField).
Implicit Types (query_params header_params source : Dict.t Value).

Lemma declared_nonempty k (extra : Dict.t Value) :
  declared k extra = true -> nonempty extra = true.
Proof. unfold declared. destruct extra; [discriminate | reflexivity]. Qed.

Lemma select_extra_declared (extra : Dict.t Value) alias selected :
  select_extra extra = Some (alias, selected) ->
  truthy alias = true /\ nonempty extra = true.
Proof.
  unfold select_extra, alias_of.
  destruct (declared "query" extra) eqn:Eq;
    [|destruct (declared "header" extra) eqn:Eh;
      [|destruct (declared "cookie" extra) eqn:Ec; [|discriminate]]];
    intros H; inversion H; subst;
    match goal with
    | Hd : declared ?k extra = true |- _ =>
        split; [|exact (declared_nonempty k extra Hd)];
        unfold declared in Hd; destruct (Dict.get k extra); congruence
    end.
Qed.

(** The extractor once neither the path nor the query parameters have the
    field name: the selected alias is looked up in the selected mapping. *)
Lemma extractor_selected connection field_name field query_params
    header_params alias selected :
  Dict.get field_name (path_params connection) = None ->
  Dict.get field_name query_params = None ->
  select_extra (extra field) = Some (alias, selected) ->
  get_connection_parameters connection field_name field query_params
    header_params
  = from_source (extra field)
      match default field with Some d => d | None => VNone end alias
      (source_mapping connection query_params header_params selected).
Proof.
  intros Hp Hq Hs. unfold get_connection_parameters. rewrite Hp, Hq, Hs.
  apply select_extra_declared in Hs. destruct Hs as [_ Hne].
  now rewrite Hne.
Qed.

(** C3, evaluated.  The claim: with the alias absent, the extractor raises
    exactly when the field is required and has no default, and returns a
    declared default of any value.  On [Parameter(query="q", default=0)]
    with query string [other=1] it raises; on [Parameter(query="q")] with
    an empty query string it returns [None].  With a query string that has
    other keys, no default raises and the default 5 is returned. *)
Theorem C3_alias_absent_with_falsy_default_or_empty_source :
  let extract qs d :=
    get_model_kwargs_from_connection Samples.digit_loads Samples.GET
      Samples.JSON Samples.MULTI_PART
      (Samples.connection_of IsRequest "GET" qs)
      [("n", Samples.query_alias_field d)] Samples.empty_world in
  fst (extract "other=1" (Some (VInt 0)))
    = Raise (ValidationException "Missing required parameter q")
  /\ fst (extract "" None) = Ok [("n", VNone)]
  /\ fst (extract "other=1" None)
    = Raise (ValidationException "Missing required parameter q")
  /\ fst (extract "other=1" (Some (VInt 5))) = Ok [("n", VInt 5)].
Proof. repeat split; reflexivity. Qed.

(** C4. Path parameters are tried first and query parameters second, both
    by field name.  Only when both miss, the first of the [query],
    [header], [cookie] extras with a truthy alias decides: the result is
    computed from that alias and that one mapping, whatever the other
    mappings hold and whatever later extras declare. *)
Theorem C4_extraction_precedence connection field_name field query_params
    header_params :
  let result :=
    get_connection_parameters connection field_name field query_params
      header_params in
  let d := match default field with Some d => d | None => VNone end in
  let e := extra field in
  (forall v, Dict.get field_name (path_params connection) = Some v ->
     result = Ok v)
  /\ (Dict.get field_name (path_params connection) = None ->
      forall v, Dict.get field_name query_params = Some v -> result = Ok v)
  /\ (Dict.get field_name (path_params connection) = None ->
      Dict.get field_name query_params = None ->
      (declared "query" e = true ->
       result = from_source e d (alias_of "query" e) query_params)
      /\ (declared "query" e = false -> declared "header" e = true ->
          result = from_source e d (alias_of "header" e) header_params)
      /\ (declared "query" e = false -> declared "header" e = false ->
          declared "cookie" e = true ->
          result = from_source e d (alias_of "cookie" e) (cookies connection))
      /\ (declared "query" e = false -> declared "header" e = false ->
          declared "cookie" e = false -> result = Ok d))
  /\ (forall source alias required v,
      alias <> "" -> Dict.get "required" e = Some required ->
      Dict.get alias source = Some v ->
      from_source e d (VStr alias) source = Ok v).
Proof.
  intros result d e. subst result d e. repeat split.
  - intros v H. unfold get_connection_parameters. now rewrite H.
  - intros Hp v H. unfold get_connection_parameters. now rewrite Hp, H.
  - intros Hq. apply extractor_selected with (selected := FromQuery); auto.
    unfold select_extra. now rewrite Hq.
  - intros Hq Hh. apply extractor_selected with (selected := FromHeader); auto.
    unfold select_extra. now rewrite Hq, Hh.
  - intros Hq Hh Hc.
    apply extractor_selected with (selected := FromCookie); auto.
    unfold select_extra. now rewrite Hq, Hh, Hc.
  - intros Hq Hh Hc. unfold get_connection_parameters, select_extra.
    rewrite H, H0, Hq, Hh, Hc. now destruct (nonempty (extra field)).
  - intros source alias required v Ha Hr Hv. unfold from_source.
    apply String.eqb_neq in Ha. simpl. rewrite Ha. simpl.
    destruct source as [|kv rest]; [discriminate|]. cbn [nonempty].
    rewrite Hr. unfold subscript. now rewrite Hv.
Qed.

(** C10, as claimed: whenever an extras source is selected and the extras
    have no [required] entry, extraction fails with the key-lookup error.
    It does not when the selected mapping is empty: the lookup block is
    skipped and the default returned. *)
Lemma C10_counterexample_empty_source :
  ~ (forall connection field_name field query_params header_params
            alias selected,
       Dict.get field_name (path_params connection) = None ->
       Dict.get field_name query_params = None ->
       select_extra (extra field) = Some (alias, selected) ->
       Dict.get "required" (extra field) = None ->
       get_connection_parameters connection field_name field query_params
         header_params
       = Raise (KeyError (VStr "required"))).
Proof.
  intros H.
  specialize (H (Samples.connection_of IsRequest "GET" "") "n"
                {| shape := SHAPE_SINGLETON; type_ := OtherType "int";
                   default := None; extra := [("query", VStr "q")] |}
                [] [] (VStr "q") FromQuery
                eq_refl eq_refl eq_refl eq_refl).
  discriminate H.
Qed.

(** C10, amended.  When an extras source is selected and the selected
    mapping is not empty, [required] is read before the alias is looked
    up: without that entry extraction raises the key-lookup error, which
    is neither the validation nor the configuration error, whether or not
    the alias is in the mapping. *)
Theorem C10_required_read_before_alias_lookup connection field_name field
    query_params header_params alias selected :
  Dict.get field_name (path_params connection) = None ->
  Dict.get field_name query_params = None ->
  select_extra (extra field) = Some (alias, selected) ->
  nonempty (source_mapping connection query_params header_params selected)
    = true ->
  Dict.get "required" (extra field) = None ->
  get_connection_parameters connection field_name field query_params
    header_params
  = Raise (KeyError (VStr "required"))
  /\ is_validation_error (KeyError (VStr "required")) = false
  /\ is_configuration_error (KeyError (VStr "required")) = false.
Proof.
  intros Hp Hq Hs Hne Hr. repeat split.
  rewrite (extractor_selected _ _ _ _ _ _ _ Hp Hq Hs).
  apply select_extra_declared in Hs. destruct Hs as [Ht _].
  unfold from_source. now rewrite Ht, Hne, Hr.
Qed.

End ExtractorFacts.

(** ** Properties of the kwargs builder and of the dependency resolver *)

Section ResolverFacts.

Variable loads : string -> option Value.
Variables GET JSON MULTI_PART : string.

Local Abbreviation field_value' := (field_value loads GET JSON MULTI_PART).
Local Abbreviation bind_fields' := (bind_fields loads GET JSON MULTI_PART).
Local Abbreviation build' :=
  (get_model_kwargs_from_connection loads GET JSON MULTI_PART).
Local Abbreviation resolve' :=
  (resolve_signature_kwargs loads GET JSON MULTI_PART).

(** How one turn of the loop unfolds. *)
Lemma bind_fields_cons connection query_params header_params field_name
    field rest kwargs w :
  bind_fields' connection query_params header_params
    ((field_name, field) :: rest) kwargs w
  = match field_value' connection query_params header_params field_name
            field w with
    | (Ok v, w1) =>
        bind_fields' connection query_params header_params rest
          (Dict.set field_name v kwargs) w1
    | (Raise e, w1) => (Raise e, w1)
    end.
Proof. reflexivity. Qed.

Lemma field_value_request connection query_params header_params field w :
  field_value' connection query_params header_params "request" field w
  = match kind connection with
    | IsRequest => (Ok VConnection, w)
    | _ => (Raise (ImproperlyConfiguredException
                     "The 'request' kwarg is not supported with websocket handlers"), w)
    end.
Proof. unfold field_value. simpl. now destruct (kind connection). Qed.

Lemma field_value_socket connection query_params header_params field w :
  field_value' connection query_params header_params "socket" field w
  = match kind connection with
    | IsWebSocket => (Ok VConnection, w)
    | _ => (Raise (ImproperlyConfiguredException
                     "The 'socket' kwarg is not supported with http handlers"), w)
    end.
Proof. unfold field_value. simpl. now destruct (kind connection). Qed.

Lemma field_value_data connection query_params header_params field w :
  field_value' connection query_params header_params "data" field w
  = match kind connection with
    | IsRequest =>
        get_request_data loads GET JSON MULTI_PART connection field w
    | _ => (Raise (ImproperlyConfiguredException
                     "The 'data' kwarg is not supported with websocket handlers"), w)
    end.
Proof. unfold field_value. simpl. now destruct (kind connection). Qed.

(** A field whose dispatch always raises makes the loop raise. *)
Lemma bind_fields_raises connection query_params header_params name fields :
  (forall field w, exists e w1,
      field_value' connection query_params header_params name field w
      = (Raise e, w1)) ->
  Dict.mem name fields = true ->
  forall kwargs w, exists e w1,
    bind_fields' connection query_params header_params fields kwargs w
    = (Raise e, w1).
Proof.
  intros Hraise. induction fields as [|[field_name field] rest IH];
    intros Hmem kwargs w; [discriminate|].
  rewrite bind_fields_cons.
  unfold Dict.mem in Hmem. cbn [Dict.get] in Hmem.
  destruct (String.eqb name field_name) eqn:E.
  - apply String.eqb_eq in E. subst field_name.
    destruct (Hraise field w) as (e & w1 & ->). eauto.
  - destruct (field_value' _ _ _ _ _ w) as [[v|e] w1]; [|eauto].
    apply IH. exact Hmem.
Qed.

(** A field whose dispatch can only return [v] is bound to [v]. *)
Lemma bind_fields_binds connection query_params header_params name v fields :
  (forall field w v' w1,
      field_value' connection query_params header_params name field w
      = (Ok v', w1) -> v' = v) ->
  forall kwargs w out w',
  bind_fields' connection query_params header_params fields kwargs w
  = (Ok out, w') ->
  Dict.get name kwargs = Some v \/ Dict.mem name fields = true ->
  Dict.get name out = Some v.
Proof.
  intros Honly. induction fields as [|[field_name field] rest IH];
    intros kwargs w out w' Hrun Hin.
  - cbn in Hrun. inversion Hrun; subst.
    destruct Hin as [H|H]; [assumption | discriminate].
  - rewrite bind_fields_cons in Hrun.
    destruct (field_value' _ _ _ _ _ w) as [[v'|e] w1] eqn:Ev;
      [|discriminate].
    apply (IH _ _ _ _ Hrun).
    unfold Dict.mem in Hin. cbn [Dict.get] in Hin.
    destruct (String.eqb name field_name) eqn:E.
    + apply String.eqb_eq in E. subst field_name.
      apply Honly in Ev. subst v'. left. apply get_set_same.
    + apply String.eqb_neq in E. rewrite get_set_other by assumption.
      exact Hin.
Qed.

(** Every turn of the loop writes [kwargs[field_name]]. *)
Lemma bind_fields_keys connection query_params header_params fields :
  forall kwargs w out w',
  bind_fields' connection query_params header_params fields kwargs w
  = (Ok out, w') ->
  NoDup (Dict.keys kwargs) ->
  NoDup (Dict.keys out)
  /\ forall k, In k (Dict.keys out)
               <-> In k (Dict.keys kwargs) \/ In k (Dict.keys fields).
Proof.
  induction fields as [|[field_name field] rest IH];
    intros kwargs w out w' Hrun Hnd.
  - cbn in Hrun. inversion Hrun; subst. split; [assumption|].
    intros k. simpl. tauto.
  - rewrite bind_fields_cons in Hrun.
    destruct (field_value' _ _ _ _ _ w) as [[v|e] w1]; [|discriminate].
    apply IH in Hrun; [|now apply NoDup_keys_set].
    destruct Hrun as [Hnd' Hdom]. split; [assumption|].
    intros k. rewrite Hdom, in_keys_set. simpl. intuition congruence.
Qed.

Lemma build_keys connection fields w out w' :
  build' connection fields w = (Ok out, w') ->
  NoDup (Dict.keys out)
  /\ forall k, In k (Dict.keys out) <-> In k (Dict.keys fields).
Proof.
  unfold get_model_kwargs_from_connection, bind, lift.
  destruct (parse_query_params connection); [|discriminate].
  intros H. apply bind_fields_keys in H; [|constructor].
  destruct H as [Hnd Hdom]. split; [assumption|].
  intros k. rewrite Hdom. simpl. tauto.
Qed.

(** C8. The [request] and [data] fields raise the configuration error
    unless the connection is a [Request], the [socket] field unless it is
    a [WebSocket]; in the allowed variant [request] and [socket] are the
    connection itself and [data] is what the body decoder gives.  On a
    whole field set: a field in the wrong variant keeps the builder from
    returning, and when the builder returns, [request] and [socket] are
    bound to the connection. *)
Theorem C8_variant_gated_fields connection query_params header_params
    field w :
  let value name :=
    field_value' connection query_params header_params name field w in
  (kind connection = IsRequest -> value "request" = (Ok VConnection, w))
  /\ (kind connection <> IsRequest -> exists msg,
      value "request" = (Raise (ImproperlyConfiguredException msg), w))
  /\ (kind connection = IsWebSocket -> value "socket" = (Ok VConnection, w))
  /\ (kind connection <> IsWebSocket -> exists msg,
      value "socket" = (Raise (ImproperlyConfiguredException msg), w))
  /\ (kind connection = IsRequest ->
      value "data"
      = get_request_data loads GET JSON MULTI_PART connection field w)
  /\ (kind connection <> IsRequest -> exists msg,
      value "data" = (Raise (ImproperlyConfiguredException msg), w))
  /\ (forall fields name,
      (name = "request" \/ name = "data") /\ kind connection <> IsRequest
      \/ name = "socket" /\ kind connection <> IsWebSocket ->
      Dict.mem name fields = true ->
      exists e w1, build' connection fields w = (Raise e, w1))
  /\ (forall fields name kwargs w1,
      name = "request" \/ name = "socket" ->
      Dict.mem name fields = true ->
      build' connection fields w = (Ok kwargs, w1) ->
      Dict.get name kwargs = Some VConnection).
Proof.
  intros value. subst value. cbv beta.
  rewrite field_value_request, field_value_socket, field_value_data.
  repeat split.
  - now intros ->.
  - intros H. destruct (kind connection); [congruence | eauto | eauto].
  - now intros ->.
  - intros H. destruct (kind connection); [eauto | congruence | eauto].
  - now intros ->.
  - intros H. destruct (kind connection); [congruence | eauto | eauto].
  - intros fields name Hgate Hmem.
    unfold get_model_kwargs_from_connection, bind, lift.
    destruct (parse_query_params connection) as [qp|e]; [|eauto].
    apply bind_fields_raises with (name := name); [|assumption].
    intros f w0.
    destruct Hgate as [[[->| ->] Hk]|[-> Hk]];
      rewrite ?field_value_request, ?field_value_data, ?field_value_socket;
      destruct (kind connection); try congruence; eauto.
  - intros fields name kwargs w1 Hname Hmem.
    unfold get_model_kwargs_from_connection, bind, lift.
    destruct (parse_query_params connection) as [qp|e]; [|discriminate].
    intros Hrun.
    apply (bind_fields_binds connection qp (header_dict connection) name
             VConnection fields) with (kwargs := []) (w := w) (w' := w1);
      auto.
    intros f w0 v' w2.
    destruct Hname as [->| ->];
      rewrite ?field_value_request, ?field_value_socket;
      destruct (kind connection); intros Hv; congruence.
Qed.

(** *** The loop over the providers *)

Section Dependencies.

Variable resolve : SignatureModel -> M (Dict.t Value).
Variable fields : Dict.t ModelField.

Lemma resolve_dependencies_cons key provider rest dependencies w :
  resolve_dependencies resolve fields ((key, provider) :: rest)
    dependencies w
  = if Dict.mem key fields then
      match resolve (get_signature_model provider) w with
      | (Ok provider_kwargs, w1) =>
          match validated_dict (get_signature_model provider)
                  provider_kwargs with
          | Ok arguments =>
              match call provider arguments w1 with
              | (Ok v, w2) =>
                  resolve_dependencies resolve fields rest
                    (Dict.set key v dependencies) w2
              | (Raise e, w2) => (Raise e, w2)
              end
          | Raise e => (Raise e, w1)
          end
      | (Raise e, w1) => (Raise e, w1)
      end
    else resolve_dependencies resolve fields rest dependencies w.
Proof.
  cbn [resolve_dependencies]. destruct (Dict.mem key fields); reflexivity.
Qed.

(** The dependencies are the provider names that are field names. *)
Lemma resolve_dependencies_keys providers :
  forall dependencies w out w',
  resolve_dependencies resolve fields providers dependencies w
  = (Ok out, w') ->
  NoDup (Dict.keys dependencies) ->
  NoDup (Dict.keys out)
  /\ forall k, In k (Dict.keys out)
               <-> In k (Dict.keys dependencies)
                   \/ In k (Dict.keys providers) /\ In k (Dict.keys fields).
Proof.
  induction providers as [|[key provider] rest IH];
    intros dependencies w out w' Hrun Hnd.
  - cbn in Hrun. inversion Hrun; subst. split; [assumption|].
    intros k. simpl. tauto.
  - rewrite resolve_dependencies_cons in Hrun.
    destruct (Dict.mem key fields) eqn:Hmem.
    + destruct (resolve _ w) as [[pk|e] w1]; [|discriminate].
      destruct (validated_dict _ pk) as [arguments|e]; [|discriminate].
      destruct (call provider arguments w1) as [[v|e] w2]; [|discriminate].
      apply IH in Hrun; [|now apply NoDup_keys_set].
      destruct Hrun as [Hnd' Hdom]. split; [assumption|].
      apply mem_in_keys in Hmem.
      intros k. rewrite Hdom, in_keys_set. simpl.
      split; intros H; [|intuition congruence].
      destruct H as [[->|H]|H]; tauto.
    + apply IH in Hrun; [|assumption].
      destruct Hrun as [Hnd' Hdom]. split; [assumption|].
      apply mem_false_not_in in Hmem.
      intros k. rewrite Hdom. simpl.
      split; intros H; [tauto|].
      destruct H as [H|[[<-|H] Hf]]; tauto.
Qed.

(** A provider whose name is a field name is called, on the validated
    kwargs resolved for its own signature model, and its result is what
    the dependencies hold under its name. *)
Lemma resolve_dependencies_value providers :
  forall dependencies w out w',
  resolve_dependencies resolve fields providers dependencies w
  = (Ok out, w') ->
  NoDup (Dict.keys providers) ->
  (forall k, ~ In k (Dict.keys providers) ->
             Dict.get k out = Dict.get k dependencies)
  /\ (forall name provider,
        In (name, provider) providers -> Dict.mem name fields = true ->
        exists provider_kwargs arguments v w0 w1 w2,
          resolve (get_signature_model provider) w0
          = (Ok provider_kwargs, w1)
          /\ validated_dict (get_signature_model provider) provider_kwargs
             = Ok arguments
          /\ call provider arguments w1 = (Ok v, w2)
          /\ Dict.get name out = Some v).
Proof.
  induction providers as [|[key provider] rest IH];
    intros dependencies w out w' Hrun Hnd.
  - cbn in Hrun. inversion Hrun; subst. split; [reflexivity|].
    intros name provider [].
  - rewrite resolve_dependencies_cons in Hrun.
    inversion Hnd as [|? ? Hfresh Hnd']; subst.
    destruct (Dict.mem key fields) eqn:Hmem.
    + destruct (resolve _ w) as [[pk|e] w1] eqn:Er; [|discriminate].
      destruct (validated_dict _ pk) as [arguments|e] eqn:Ev;
        [|discriminate].
      destruct (call provider arguments w1) as [[v|e] w2] eqn:Ec;
        [|discriminate].
      destruct (IH _ _ _ _ Hrun Hnd') as [Hkeep Hcalled]. split.
      * intros k Hk. simpl in Hk. rewrite Hkeep by tauto.
        apply get_set_other. intros ->. tauto.
      * intros name p [Heq|Hin] Hm.
        -- inversion Heq; subst.
           exists pk, arguments, v, w, w1, w2. repeat split; auto.
           rewrite (Hkeep name Hfresh). apply get_set_same.
        -- now apply Hcalled.
    + destruct (IH _ _ _ _ Hrun Hnd') as [Hkeep Hcalled]. split.
      * intros k Hk. simpl in Hk. apply Hkeep. tauto.
      * intros name p [Heq|Hin] Hm.
        -- inversion Heq; subst. congruence.
        -- now apply Hcalled.
Qed.

End Dependencies.

Lemma resolve_unfold depth signature_model connection providers w :
  resolve' (S depth) signature_model connection providers w
  = match resolve_dependencies
            (fun provider_signature_model =>
               resolve' depth provider_signature_model connection providers)
            (__fields__ signature_model) providers [] w with
    | (Ok dependencies, w1) =>
        match build' connection
                (Dict.without (__fields__ signature_model) dependencies)
                w1 with
        | (Ok connection_kwargs, w2) =>
            (Ok (Dict.merge connection_kwargs dependencies), w2)
        | (Raise e, w2) => (Raise e, w2)
        end
    | (Raise e, w1) => (Raise e, w1)
    end.
Proof.
  cbn [resolve_signature_kwargs]. unfold bind at 1.
  destruct (resolve_dependencies _ _ _ _ w) as [[dependencies|e] w1];
    [|reflexivity].
  unfold bind, ret. now destruct (build' _ _ w1) as [[ck|e] w2].
Qed.

(** C9. When resolution returns, the kwargs have each field name of the
    signature model as a key, once, and no other key. *)
Theorem C9_kwargs_domain_is_field_set depth signature_model connection
    providers w kwargs w' :
  resolve' depth signature_model connection providers w = (Ok kwargs, w') ->
  NoDup (Dict.keys kwargs)
  /\ forall k, In k (Dict.keys kwargs)
               <-> In k (Dict.keys (__fields__ signature_model)).
Proof.
  destruct depth as [|depth]; [discriminate|].
  rewrite resolve_unfold.
  destruct (resolve_dependencies _ _ _ _ w) as [[dependencies|e] w1] eqn:Ed;
    [|discriminate].
  destruct (build' _ _ w1) as [[ck|e] w2] eqn:Eb; [|discriminate].
  intros H. inversion H; subst. clear H.
  apply resolve_dependencies_keys in Ed; [|constructor].
  destruct Ed as [_ Hdeps]. apply build_keys in Eb.
  destruct Eb as [Hnd Hck]. split.
  - now apply NoDup_keys_merge.
  - intros k. rewrite in_keys_merge, Hck, in_keys_without, Hdeps. simpl.
    destruct (in_dec string_dec k (Dict.keys dependencies)) as [Hin|Hout].
    + apply Hdeps in Hin. simpl in Hin. tauto.
    + rewrite Hdeps in Hout. simpl in Hout. tauto.
Qed.

(** C1, amended.  A field with a reserved name for which the provider
    table (a dictionary: one entry per name) has a provider: when
    resolution returns, the kwargs bind that name to the result of calling
    the provider on the validated kwargs resolved for the provider's own
    signature model.  The provider shadows the reserved name. *)
Theorem C1_provider_shadows_reserved_name depth signature_model connection
    providers w kwargs w' name provider :
  str_in name reserved_names = true ->
  Dict.mem name (__fields__ signature_model) = true ->
  In (name, provider) providers ->
  NoDup (Dict.keys providers) ->
  resolve' depth signature_model connection providers w = (Ok kwargs, w') ->
  exists provider_kwargs arguments v w0 w1 w2,
    resolve' (pred depth) (get_signature_model provider) connection
      providers w0 = (Ok provider_kwargs, w1)
    /\ validated_dict (get_signature_model provider) provider_kwargs
       = Ok arguments
    /\ call provider arguments w1 = (Ok v, w2)
    /\ Dict.get name kwargs = Some v.
Proof.
  intros _ Hfield Hin Hnd.
  destruct depth as [|depth]; [discriminate|].
  rewrite resolve_unfold.
  destruct (resolve_dependencies _ _ _ _ w) as [[dependencies|e] w1] eqn:Ed;
    [|discriminate].
  destruct (build' _ _ w1) as [[ck|e] w2] eqn:Eb; [|discriminate].
  intros H. inversion H; subst. clear H.
  pose proof (resolve_dependencies_keys _ _ _ _ _ _ _ Ed (NoDup_nil _))
    as [Hnd_deps _].
  apply resolve_dependencies_value in Ed; [|assumption].
  destruct Ed as [_ Hcalled].
  destruct (Hcalled name provider Hin Hfield)
    as (pk & arguments & v & w0 & w3 & w4 & Hr & Hv & Hc & Hget).
  exists pk, arguments, v, w0, w3, w4. repeat split; auto.
  now apply get_merge_right.
Qed.

End ResolverFacts.

(** ** The theorems at sample inputs *)

Section Instances.

Import Samples.

Local Abbreviation post := (connection_of IsRequest "POST" "a=1").

Lemma C6_multipart_shaping_witness :
  handle_multipart digit_loads MULTI_PART (VStr MULTI_PART) (form post)
    (media_field SHAPE_LIST (OtherType "list") MULTI_PART)
  = VList [VInt 1; VStr "raw"]
  /\ handle_multipart digit_loads MULTI_PART (VStr MULTI_PART)
       [("f", FormFile "a.txt")]
       (media_field SHAPE_SINGLETON UploadFile MULTI_PART)
     = VUploadFile "a.txt"
  /\ handle_multipart digit_loads MULTI_PART (VStr MULTI_PART) (form post)
       (media_field SHAPE_SINGLETON (OtherType "dict") MULTI_PART)
     = VDict [("x", VInt 1); ("y", VStr "raw")]
  /\ handle_multipart digit_loads MULTI_PART (VStr URL_ENCODED) (form post)
       (media_field SHAPE_LIST (OtherType "list") URL_ENCODED)
     = VDict [("x", VInt 1); ("y", VStr "raw")].
Proof.
  split; [|split; [|split]].
  - exact (proj1 (proj2 (C6_multipart_shaping digit_loads MULTI_PART
             (VStr MULTI_PART) (form post)
             (media_field SHAPE_LIST (OtherType "list") MULTI_PART)))
             eq_refl eq_refl).
  - exact (proj1 (proj2 (proj2 (C6_multipart_shaping digit_loads MULTI_PART
             (VStr MULTI_PART) [("f", FormFile "a.txt")]
             (media_field SHAPE_SINGLETON UploadFile MULTI_PART))))
             eq_refl eq_refl eq_refl "f" (VUploadFile "a.txt") [] eq_refl).
  - refine (proj1 (proj2 (proj2 (proj2 (C6_multipart_shaping digit_loads
             MULTI_PART (VStr MULTI_PART) (form post)
             (media_field SHAPE_SINGLETON (OtherType "dict") MULTI_PART)))))
             eq_refl _ (or_intror (or_introl _))); discriminate.
  - exact (proj2 (proj2 (proj2 (proj2 (C6_multipart_shaping digit_loads
             MULTI_PART (VStr URL_ENCODED) (form post)
             (media_field SHAPE_LIST (OtherType "list") URL_ENCODED)))))
             eq_refl).
Defined.

Lemma C7_form_decode_swallowed_body_decode_fatal_witness :
  form_entry_value digit_loads (FormStr "raw") = VStr "raw"
  /\ multipart_values digit_loads [("y", FormStr "raw")] = [("y", VStr "raw")]
  /\ fst (get_request_data digit_loads GET JSON MULTI_PART post
            (media_field SHAPE_SINGLETON (OtherType "dict") URL_ENCODED)
            empty_world)
     = Ok (VDict [("x", VInt 1); ("y", VStr "raw")])
  /\ fst (get_request_data digit_loads GET JSON MULTI_PART
            (with_body post "{oops") plain_field empty_world)
     = Raise JSONDecodeError.
Proof.
  pose proof (C7_form_decode_swallowed_body_decode_fatal digit_loads GET
                JSON MULTI_PART) as (Hentry & Hone & Hform & Hbody).
  split; [|split; [|split]].
  - exact (Hentry "raw" eq_refl).
  - exact (Hone "y" "raw" eq_refl).
  - rewrite (Hform post
               (media_field SHAPE_SINGLETON (OtherType "dict") URL_ENCODED)
               (VStr URL_ENCODED) empty_world);
      [reflexivity | discriminate | reflexivity | reflexivity | reflexivity].
  - apply Hbody; [discriminate | | reflexivity].
    intros media_type Hget. discriminate Hget.
Defined.

Lemma C5_get_data_is_configuration_error_witness :
  lower (method (connection_of IsRequest "GET" "a=1")) = GET
  /\ (exists msg,
        get_request_data digit_loads GET JSON MULTI_PART
          (connection_of IsRequest "GET" "a=1") plain_field empty_world
        = (Raise (ImproperlyConfiguredException msg), empty_world))
  /\ (exists e,
        get_model_kwargs_from_connection digit_loads GET JSON MULTI_PART
          (connection_of IsRequest "GET" "a=1")
          [("a", plain_field); ("data", plain_field)] empty_world
        = (Raise e, empty_world)).
Proof.
  pose proof (C5_get_data_is_configuration_error digit_loads GET JSON
                MULTI_PART (connection_of IsRequest "GET" "a=1") plain_field
                empty_world eq_refl) as [[msg [Hraise _]] Hbuild].
  split; [reflexivity|]. split.
  - exists msg. exact Hraise.
  - exact (Hbuild eq_refl [("a", plain_field); ("data", plain_field)] eq_refl).
Defined.

Lemma C4_extraction_precedence_witness :
  get_connection_parameters (with_path post [("a", VStr "from-path")]) "a"
    plain_field [("a", VStr "1")] [] = Ok (VStr "from-path")
  /\ get_connection_parameters post "a" plain_field [("a", VStr "1")] []
     = Ok (VStr "1")
  /\ get_connection_parameters post "n"
       (extras_field [("query", VStr "a"); ("header", VStr "h");
                      ("cookie", VStr "c"); ("required", VBool true)])
       [("a", VStr "1")] [("h", VStr "from-header")]
     = Ok (VStr "1")
  /\ get_connection_parameters post "n"
       (extras_field [("query", VNone); ("header", VStr "h");
                      ("cookie", VStr "c"); ("required", VBool true)])
       [("a", VStr "1")] [("h", VStr "from-header")]
     = Ok (VStr "from-header")
  /\ get_connection_parameters post "n"
       (extras_field [("query", VNone); ("header", VNone);
                      ("cookie", VStr "c"); ("required", VBool true)])
       [("a", VStr "1")] [("h", VStr "from-header")]
     = Ok (VStr "from-cookie")
  /\ get_connection_parameters post "n"
       (extras_field [("query", VNone); ("header", VNone);
                      ("cookie", VNone); ("required", VBool true)])
       [("a", VStr "1")] [("h", VStr "from-header")]
     = Ok VNone.
Proof.
  split; [|split; [|split; [|split; [|split]]]].
  - exact (proj1 (C4_extraction_precedence
             (with_path post [("a", VStr "from-path")]) "a" plain_field
             [("a", VStr "1")] []) (VStr "from-path") eq_refl).
  - exact (proj1 (proj2 (C4_extraction_precedence post "a" plain_field
             [("a", VStr "1")] [])) eq_refl (VStr "1") eq_refl).
  - exact (proj1 (proj1 (proj2 (proj2 (C4_extraction_precedence post "n"
             (extras_field [("query", VStr "a"); ("header", VStr "h");
                            ("cookie", VStr "c"); ("required", VBool true)])
             [("a", VStr "1")] [("h", VStr "from-header")])))
             eq_refl eq_refl) eq_refl).
  - exact (proj1 (proj2 (proj1 (proj2 (proj2 (C4_extraction_precedence post
             "n"
             (extras_field [("query", VNone); ("header", VStr "h");
                            ("cookie", VStr "c"); ("required", VBool true)])
             [("a", VStr "1")] [("h", VStr "from-header")])))
             eq_refl eq_refl)) eq_refl eq_refl).
  - exact (proj1 (proj2 (proj2 (proj1 (proj2 (proj2
             (C4_extraction_precedence post "n"
             (extras_field [("query", VNone); ("header", VNone);
                            ("cookie", VStr "c"); ("required", VBool true)])
             [("a", VStr "1")] [("h", VStr "from-header")])))
             eq_refl eq_refl))) eq_refl eq_refl eq_refl).
  - exact (proj2 (proj2 (proj2 (proj1 (proj2 (proj2
             (C4_extraction_precedence post "n"
             (extras_field [("query", VNone); ("header", VNone);
                            ("cookie", VNone); ("required", VBool true)])
             [("a", VStr "1")] [("h", VStr "from-header")])))
             eq_refl eq_refl))) eq_refl eq_refl eq_refl).
Defined.

Lemma C10_required_read_before_alias_lookup_witness :
  Dict.get "q" [("q", VStr "1")] = Some (VStr "1")
  /\ get_connection_parameters post "n" (extras_field [("query", VStr "q")])
       [("q", VStr "1")] []
     = Raise (KeyError (VStr "required")).
Proof.
  split; [reflexivity|].
  exact (proj1 (C10_required_read_before_alias_lookup post "n"
           (extras_field [("query", VStr "q")]) [("q", VStr "1")] []
           (VStr "q") FromQuery eq_refl eq_refl eq_refl eq_refl eq_refl)).
Defined.

Lemma C8_variant_gated_fields_witness :
  field_value digit_loads GET JSON MULTI_PART post [] [] "request"
    plain_field empty_world = (Ok VConnection, empty_world)
  /\ (exists msg,
        field_value digit_loads GET JSON MULTI_PART websocket [] [] "request"
          plain_field empty_world
        = (Raise (ImproperlyConfiguredException msg), empty_world))
  /\ field_value digit_loads GET JSON MULTI_PART websocket [] [] "socket"
       plain_field empty_world = (Ok VConnection, empty_world)
  /\ (exists msg,
        field_value digit_loads GET JSON MULTI_PART post [] [] "socket"
          plain_field empty_world
        = (Raise (ImproperlyConfiguredException msg), empty_world))
  /\ (exists msg,
        field_value digit_loads GET JSON MULTI_PART websocket [] [] "data"
          plain_field empty_world
        = (Raise (ImproperlyConfiguredException msg), empty_world))
  /\ (exists e w1,
        get_model_kwargs_from_connection digit_loads GET JSON MULTI_PART
          websocket [("a", plain_field); ("data", plain_field)] empty_world
        = (Raise e, w1))
  /\ (forall kwargs w1,
        get_model_kwargs_from_connection digit_loads GET JSON MULTI_PART
          websocket [("socket", plain_field); ("a", plain_field)] empty_world
        = (Ok kwargs, w1) ->
        Dict.get "socket" kwargs = Some VConnection).
Proof.
  pose proof (C8_variant_gated_fields digit_loads GET JSON MULTI_PART post
                [] [] plain_field empty_world)
    as (Hreq & _ & _ & Hnosock & _ & _ & _ & _).
  pose proof (C8_variant_gated_fields digit_loads GET JSON MULTI_PART
                websocket [] [] plain_field empty_world)
    as (_ & Hnoreq & Hsock & _ & _ & Hnodata & Hfail & Hbound).
  split; [exact (Hreq eq_refl)|].
  split; [apply Hnoreq; discriminate|].
  split; [exact (Hsock eq_refl)|].
  split; [apply Hnosock; discriminate|].
  split; [apply Hnodata; discriminate|].
  split.
  - apply (Hfail [("a", plain_field); ("data", plain_field)] "data");
      [|reflexivity].
    left. split; [right; reflexivity | discriminate].
  - intros kwargs w1.
    apply (Hbound [("socket", plain_field); ("a", plain_field)] "socket");
      [right; reflexivity | reflexivity].
Defined.

Lemma C9_kwargs_domain_is_field_set_witness :
  resolve_signature_kwargs digit_loads GET JSON MULTI_PART 2 handler_model
    post provider_table empty_world
  = (Ok [("a", VStr "1"); ("data", VStr "provided"); ("dep", VInt 1)],
     empty_world)
  /\ NoDup ["a"; "data"; "dep"]
  /\ forall k, In k ["a"; "data"; "dep"] <-> In k ["a"; "data"; "dep"].
Proof.
  split; [reflexivity|].
  exact (C9_kwargs_domain_is_field_set digit_loads GET JSON MULTI_PART 2
           handler_model post provider_table empty_world
           [("a", VStr "1"); ("data", VStr "provided"); ("dep", VInt 1)]
           empty_world eq_refl).
Defined.

Lemma C1_provider_shadows_reserved_name_witness :
  exists provider_kwargs arguments v w0 w1 w2,
    resolve_signature_kwargs digit_loads GET JSON MULTI_PART 1
      (get_signature_model (constant_provider (VStr "provided"))) post
      provider_table w0 = (Ok provider_kwargs, w1)
    /\ validated_dict
         (get_signature_model (constant_provider (VStr "provided")))
         provider_kwargs = Ok arguments
    /\ call (constant_provider (VStr "provided")) arguments w1 = (Ok v, w2)
    /\ Dict.get "data"
         [("a", VStr "1"); ("data", VStr "provided"); ("dep", VInt 1)]
       = Some v.
Proof.
  apply (C1_provider_shadows_reserved_name digit_loads GET JSON MULTI_PART 2
           handler_model post provider_table empty_world
           [("a", VStr "1"); ("data", VStr "provided"); ("dep", VInt 1)]
           empty_world "data" (constant_provider (VStr "provided"))).
  - reflexivity.
  - reflexivity.
  - right. left. reflexivity.
  - repeat constructor; simpl; intuition discriminate.
  - reflexivity.
Defined.

(** C1, as claimed: the kwargs bind a reserved name to the value the
    connection gives it even when a provider has that name.  With a field
    [data] and a provider [data] on a POST request whose body decodes to
    7, the kwargs hold the provider's result and not 7. *)
Lemma C1_counterexample_provider_named_data :
  ~ (forall depth signature_model connection providers w kwargs w'
            name field provider,
       str_in name reserved_names = true ->
       Dict.get name (__fields__ signature_model) = Some field ->
       Dict.get name providers = Some provider ->
       resolve_signature_kwargs digit_loads GET JSON MULTI_PART depth
         signature_model connection providers w = (Ok kwargs, w') ->
       exists v w0 w1,
         connection_value digit_loads GET JSON MULTI_PART connection name
           field w0 = (Ok v, w1)
         /\ Dict.get name kwargs = Some v).
Proof.
  intros H.
  destruct (H 2 handler_model post provider_table empty_world
              [("a", VStr "1"); ("data", VStr "provided"); ("dep", VInt 1)]
              empty_world "data" plain_field
              (constant_provider (VStr "provided"))
              eq_refl eq_refl eq_refl eq_refl)
    as (v & w0 & w1 & Hvalue & Hget).
  vm_compute in Hvalue. vm_compute in Hget.
  inversion Hvalue; subst. discriminate Hget.
Qed.

(** A provider that depends on another provider is resolved through the
    recursive call; a provider that depends on itself exhausts any depth. *)
Example resolve_nested_provider :
  resolve_signature_kwargs digit_loads GET JSON MULTI_PART 3
    (model_of [("outer", plain_field); ("a", plain_field)]) post
    [("outer", echo_provider "dep"); ("dep", constant_provider (VInt 1))]
    empty_world
  = (Ok [("a", VStr "1"); ("outer", VDict [("dep", VInt 1)])], empty_world).
Proof. reflexivity. Qed.

Example resolve_cyclic_provider :
  fst (resolve_signature_kwargs digit_loads GET JSON MULTI_PART 25
         (model_of [("p", plain_field)]) post [("p", echo_provider "p")]
         empty_world)
  = Raise RecursionError.
Proof. reflexivity. Qed.

End Instances.

(** ** Further properties of the query-string parser *)

Section QueryParserFacts.

Lemma get_app {V : Type} (k : string) (d1 d2 : Dict.t V) :
  Dict.get k (d1 ++ d2)
  = match Dict.get k d1 with Some v => Some v | None => Dict.get k d2 end.
Proof.
  induction d1 as [|[k' v'] rest IH]; simpl; auto.
  now destruct (String.eqb k k').
Qed.

Lemma set_absent {V : Type} (k : string) (v : V) (d : Dict.t V) :
  Dict.get k d = None -> Dict.set k v d = d ++ [(k, v)].
Proof.
  induction d as [|[k' v'] rest IH]; simpl; auto.
  destruct (String.eqb k k'); [discriminate|].
  intros H. now rewrite IH.
Qed.




Lemma values_for_app {A : Type} key (p1 p2 : list (string * A)) :
  values_for key (p1 ++ p2) = values_for key p1 ++ values_for key p2.
Proof. unfold values_for. now rewrite filter_app, map_app. Qed.

Lemma values_for_one {A : Type} key k (v : A) :
  values_for key [(k, v)] = if String.eqb key k then [v] else [].
Proof. unfold values_for. simpl. now destruct (String.eqb key k). Qed.

Lemma in_values_for {A : Type} key (pairs : list (string * A)) v :
  In v (values_for key pairs) -> In (key, v) pairs.
Proof.
  unfold values_for. rewrite in_map_iff. intros [[k v'] [Hv Hin]].
  apply filter_In in Hin. destruct Hin as [Hin Hk]. simpl in *.
  apply String.eqb_eq in Hk. now subst.
Qed.





Lemma Forall_values_set (P : Value -> Prop) k v (d : Dict.t Value) :
  P v -> Forall (fun kv => P (snd kv)) d ->
  Forall (fun kv => P (snd kv)) (Dict.set k v d).
Proof.
  intros Hv. induction 1 as [|[k' v'] rest Hhead Hrest IH]; simpl.
  - repeat constructor. exact Hv.
  - destruct (String.eqb k k'); constructor; auto.
Qed.

Lemma Forall_values_get (P : Value -> Prop) k v (d : Dict.t Value) :
  Forall (fun kv => P (snd kv)) d -> Dict.get k d = Some v -> P v.
Proof.
  induction 1 as [|[k' v'] rest Hhead Hrest IH]; simpl; [discriminate|].
  destruct (String.eqb k k'); auto. intros H. now inversion H; subst.
Qed.

Lemma query_item_query_value value : query_item (query_value value) = true.
Proof.
  unfold query_value.
  destruct (str_in value _true_values) eqn:Et; auto.
  destruct (str_in value _false_values) eqn:Ef; auto.
  simpl. unfold str_in in Et, Ef. simpl in Et, Ef. now rewrite Et, Ef.
Qed.

Lemma query_item_shape v : query_item v = true -> query_shape v = true.
Proof. destruct v; simpl; auto; discriminate. Qed.

(** The reducer on a well-shaped mapping: it raises exactly when the key
    holds [True]; otherwise it stores either the new value or a list. *)
Lemma reducer_cases acc key value :
  Forall (fun kv => query_shape (snd kv) = true) acc ->
  (Dict.get key acc = Some (VBool true)
   /\ _query_param_reducer acc (key, value) = Raise TypeError)
  \/ (Dict.get key acc <> Some (VBool true)
      /\ exists stored,
           _query_param_reducer acc (key, value)
           = Ok (Dict.set key stored acc)
           /\ query_shape stored = true
           /\ (stored = query_value value \/ is_list stored = true)).
Proof.
  intros Hshape. unfold _query_param_reducer. fold (query_value value).
  pose proof (query_item_query_value value) as Hitem.
  destruct (Dict.get key acc) as [param|] eqn:Hget.
  - pose proof (Forall_values_get (fun v => query_shape v = true)
                  _ _ _ Hshape Hget) as Hparam.
    cbv beta in Hparam.
    destruct param as [|b|z|s|l|d|f|]; try discriminate Hparam.
    + destruct b; [left; auto|]. right. split; [discriminate|].
      exists (query_value value). cbn [truthy].
      repeat split; auto using query_item_shape.
    + right. split; [discriminate|]. cbn [is_str].
      destruct (truthy (VStr s)).
      * exists (VList [VStr s; query_value value]). repeat split; auto.
        cbn [query_shape forallb]. cbn [query_shape] in Hparam.
        now rewrite Hparam, Hitem.
      * exists (query_value value). repeat split; auto using query_item_shape.
    + right. split; [discriminate|].
      destruct l as [|a [|b l]]; try discriminate Hparam.
      cbn [truthy is_str unpack].
      exists (VList ((a :: b :: l) ++ [query_value value])).
      repeat split; auto.
      cbn [app query_shape]. cbn [query_shape] in Hparam.
      change (a :: b :: l ++ [query_value value])
        with ((a :: b :: l) ++ [query_value value]).
      rewrite forallb_app, Hparam. cbn [forallb]. now rewrite Hitem.
  - right. split; [discriminate|]. cbn [truthy].
    exists (query_value value). repeat split; auto using query_item_shape.
Qed.

Lemma reduce_shape pairs : forall acc d,
  Forall (fun kv => query_shape (snd kv) = true) acc ->
  reduce _query_param_reducer pairs acc = Ok d ->
  Forall (fun kv => query_shape (snd kv) = true) d.
Proof.
  induction pairs as [|[key value] rest IH]; intros acc d Hshape Hrun;
    cbn [reduce] in Hrun.
  - now inversion Hrun; subst.
  - destruct (reducer_cases acc key value Hshape)
      as [[_ Hraise]|[_ (stored & Hok & Hstored & _)]].
    + rewrite Hraise in Hrun. discriminate.
    + rewrite Hok in Hrun. apply IH in Hrun; auto.
      now apply (Forall_values_set (fun v => query_shape v = true)).
Qed.

Lemma reduce_raises_TypeError pairs : forall acc e,
  Forall (fun kv => query_shape (snd kv) = true) acc ->
  reduce _query_param_reducer pairs acc = Raise e -> e = TypeError.
Proof.
  induction pairs as [|[key value] rest IH]; intros acc e Hshape Hrun;
    cbn [reduce] in Hrun; [discriminate|].
  destruct (reducer_cases acc key value Hshape)
    as [[_ Hraise]|[_ (stored & Hok & Hstored & _)]].
  - rewrite Hraise in Hrun. now inversion Hrun.
  - rewrite Hok in Hrun. apply IH in Hrun; auto.
    now apply (Forall_values_set (fun v => query_shape v = true)).
Qed.

Lemma reduce_without_true pairs : forall acc,
  Forall (fun kv => query_shape (snd kv) = true /\ snd kv <> VBool true) acc ->
  (forall kv, In kv pairs -> str_in (snd kv) _true_values = false) ->
  exists d, reduce _query_param_reducer pairs acc = Ok d.
Proof.
  induction pairs as [|[key value] rest IH]; intros acc Hacc Hpairs;
    cbn [reduce]; [eauto|].
  assert (Hshape : Forall (fun kv => query_shape (snd kv) = true) acc).
  { eapply Forall_impl; [|exact Hacc]. now intros kv [H _]. }
  destruct (reducer_cases acc key value Hshape)
    as [[Hget _]|[_ (stored & Hok & Hstored & Hkind)]].
  - apply (Forall_values_get
             (fun v => query_shape v = true /\ v <> VBool true)) in Hget;
      [|exact Hacc].
    now destruct Hget.
  - rewrite Hok. apply IH.
    + apply (Forall_values_set
               (fun v => query_shape v = true /\ v <> VBool true));
        [|exact Hacc].
      split; [assumption|]. destruct Hkind as [->|Hlist].
      * unfold query_value.
        pose proof (Hpairs (key, value) (or_introl eq_refl)) as Ht.
        cbn [snd] in Ht. rewrite Ht.
        destruct (str_in value _false_values); discriminate.
      * intros ->. discriminate.
    + intros kv Hin. apply Hpairs. now right.
Qed.

(** X3. Parsing can fail with a [TypeError] only, and it does not fail at
    all when no value of the query string is [true] or [True]. *)
Theorem parse_query_params_failure connection :
  (forall e, parse_query_params connection = Raise e -> e = TypeError)
  /\ (forall qs,
        query_string connection = Some qs ->
        forallb (fun kv => negb (str_in (snd kv) _true_values)) (parse_qsl qs)
        = true ->
        exists d, parse_query_params connection = Ok d).
Proof.
  unfold parse_query_params, parse_query_params_of. split.
  - intros e. destruct (query_string connection); [|discriminate].
    apply reduce_raises_TypeError. constructor.
  - intros qs -> Hnone. apply reduce_without_true; [constructor|].
    rewrite forallb_forall in Hnone. intros kv Hin.
    apply negb_true_iff. now apply Hnone.
Qed.

(** X4. The values of a parsed query mapping are strings other than the
    four boolean literals, booleans, or lists of at least two of these. *)
Theorem parse_query_params_value_shape connection d key v :
  parse_query_params connection = Ok d ->
  Dict.get key d = Some v ->
  query_shape v = true.
Proof.
  unfold parse_query_params, parse_query_params_of. intros Hrun Hget.
  destruct (query_string connection) as [qs|].
  - apply reduce_shape in Hrun; [|constructor].
    exact (Forall_values_get (fun v => query_shape v = true) _ _ _ Hrun Hget).
  - inversion Hrun; subst. discriminate.
Qed.



End QueryParserFacts.

(** ** Further properties of the body decoder *)

Section FormFacts.

Variable loads : string -> option Value.
Variables GET JSON MULTI_PART : string.

Local Abbreviation decode := (form_entry_value loads).

Lemma multipart_step_fresh values_dict key value :
  Dict.get key values_dict = None ->
  multipart_step loads values_dict (key, value)
  = values_dict ++ [(key, decode value)].
Proof.
  intros H. unfold multipart_step. rewrite H. cbn [truthy].
  now apply set_absent.
Qed.

Lemma multipart_fold_distinct form_data : forall values_dict,
  NoDup (map fst form_data) ->
  (forall kv, In kv form_data -> Dict.get (fst kv) values_dict = None) ->
  fold_left (multipart_step loads) form_data values_dict
  = values_dict ++ map (fun kv => (fst kv, decode (snd kv))) form_data.
Proof.
  induction form_data as [|[key value] rest IH]; intros values_dict Hnd Hfresh;
    cbn [fold_left map fst snd].
  - now rewrite app_nil_r.
  - inversion Hnd as [|? ? Hnotin Hnd']; subst.
    rewrite multipart_step_fresh by (apply (Hfresh (key, value)); now left).
    rewrite IH; auto.
    + now rewrite <- app_assoc.
    + intros [k v] Hin. cbn [fst]. rewrite get_app.
      pose proof (Hfresh (k, v) (or_intror Hin)) as Hf. cbn [fst] in Hf.
      rewrite Hf. cbn [Dict.get].
      destruct (String.eqb k key) eqn:E; auto.
      apply String.eqb_eq in E. subst k.
      exfalso. apply Hnotin. apply in_map_iff. now exists (key, v).
Qed.

(** X6. A form whose keys are all different becomes the mapping of its
    entries, in order: uploads as they are, strings JSON-decoded when they
    decode and raw when they do not. *)
Theorem multipart_values_distinct_keys form_data :
  NoDup (map fst form_data) ->
  multipart_values loads form_data
  = map (fun kv => (fst kv, decode (snd kv))) form_data.
Proof.
  intros Hnd. unfold multipart_values.
  now rewrite multipart_fold_distinct.
Qed.

Lemma multipart_step_scalar values_dict seen key value :
  collects decode values_dict seen ->
  (forall kv, In kv seen -> scalar (decode (snd kv)) = true) ->
  collects decode (multipart_step loads values_dict (key, value))
    (seen ++ [(key, value)]).
Proof.
  intros Hacc Hseen. unfold multipart_step.
  pose proof (Hacc key) as Hkey.
  assert (Hstep : forall stored,
             Some stored
             = collected (map decode (values_for key seen ++ [value])) ->
             collects decode (Dict.set key stored values_dict)
               (seen ++ [(key, value)])).
  { intros stored Hstored k. rewrite values_for_app, values_for_one.
    destruct (String.eqb k key) eqn:E.
    - apply String.eqb_eq in E. subst k. now rewrite get_set_same.
    - apply String.eqb_neq in E. rewrite get_set_other by assumption.
      rewrite app_nil_r. apply Hacc. }
  destruct (values_for key seen) as [|a [|b l]] eqn:Evs;
    cbn [map collected] in Hkey; rewrite Hkey.
  - cbn [truthy]. now apply Hstep.
  - assert (Ha : scalar (decode a) = true).
    { apply (Hseen (key, a)). apply in_values_for. rewrite Evs. now left. }
    unfold scalar in Ha. apply andb_true_iff in Ha. destruct Ha as [Ht Hl].
    rewrite Ht. apply negb_true_iff in Hl.
    destruct (decode a) eqn:Ed; try discriminate Hl;
      apply Hstep; cbn [app map collected]; now rewrite Ed.
  - cbn [truthy]. apply Hstep. cbn [map app collected]. now rewrite map_app.
Qed.

Lemma multipart_fold_scalar form_data : forall values_dict seen,
  collects decode values_dict seen ->
  (forall kv, In kv seen -> scalar (decode (snd kv)) = true) ->
  (forall kv, In kv form_data -> scalar (decode (snd kv)) = true) ->
  collects decode (fold_left (multipart_step loads) form_data values_dict)
    (seen ++ form_data).
Proof.
  induction form_data as [|[key value] rest IH];
    intros values_dict seen Hacc Hseen Hrest; cbn [fold_left].
  - now rewrite app_nil_r.
  - change ((key, value) :: rest) with ([(key, value)] ++ rest).
    rewrite app_assoc. apply IH.
    + now apply multipart_step_scalar.
    + intros kv Hin. apply in_app_iff in Hin. destruct Hin as [Hin|[<-|[]]].
      * now apply Hseen.
      * apply (Hrest (key, value)). now left.
    + intros kv Hin. apply Hrest. now right.
Qed.

(** X7. When every entry of the form is an upload, or decodes to a value
    that is truthy and not a list, each key holds its value if it has one
    entry and the list of all its values, in order, if it has several. *)
Theorem multipart_values_collects_scalars form_data key :
  forallb (fun kv => scalar (decode (snd kv))) form_data = true ->
  Dict.get key (multipart_values loads form_data)
  = collected (map decode (values_for key form_data)).
Proof.
  intros Hall. rewrite forallb_forall in Hall.
  apply (multipart_fold_scalar form_data [] []).
  - intros k. reflexivity.
  - intros kv [].
  - exact Hall.
Qed.



End FormFacts.

(** ** Further properties of the connection parameter extractor *)

Section ExtractorFailures.

Implicit Types (connection : Connection) (field : ModelField).
Implicit Types (query_params header_params : Dict.t Value).

Lemma subscript_raises source key e :
  subscript source key = Raise e -> e = TypeError \/ e = KeyError key.
Proof.
  unfold subscript. intros H.
  destruct key; try (inversion H; auto; fail).
  destruct (Dict.get s source); inversion H; auto.
Qed.

(** X10. The only ways extraction fails.  The field name is in neither the
    path nor the query parameters, an extra with a truthy alias is selected
    and its mapping is not empty; then either the extras have no
    [required] entry (key-lookup error), or the alias is unhashable
    ([TypeError]), or the alias is missing from the mapping while
    [required] is truthy and the default falsy (validation error whose
    message ends with the alias). *)
Theorem get_connection_parameters_failure connection field_name field
    query_params header_params e :
  get_connection_parameters connection field_name field query_params
    header_params = Raise e ->
  Dict.get field_name (path_params connection) = None
  /\ Dict.get field_name query_params = None
  /\ exists alias selected,
       select_extra (extra field) = Some (alias, selected)
       /\ let source :=
            source_mapping connection query_params header_params selected in
          nonempty source = true
          /\ ((Dict.get "required" (extra field) = None
               /\ e = KeyError (VStr "required"))
              \/ (exists required,
                    Dict.get "required" (extra field) = Some required
                    /\ ((subscript source alias = Raise TypeError
                         /\ e = TypeError)
                        \/ (subscript source alias = Raise (KeyError alias)
                            /\ truthy required = true
                            /\ truthy match default field with
                                      | Some d => d
                                      | None => VNone
                                      end = false
                            /\ e = ValidationException
                                     ("Missing required parameter "
                                        ++ format_value alias))))).
Proof.
  unfold get_connection_parameters.
  destruct (Dict.get field_name (path_params connection)); [discriminate|].
  destruct (Dict.get field_name query_params); [discriminate|].
  destruct (nonempty (extra field)); [|discriminate].
  destruct (select_extra (extra field)) as [[alias selected]|] eqn:Es;
    [|discriminate].
  intros Hrun. split; [reflexivity|]. split; [reflexivity|].
  exists alias, selected. split; [reflexivity|]. cbv zeta.
  unfold from_source in Hrun.
  destruct (truthy alias && nonempty (source_mapping _ _ _ selected)) eqn:Eg;
    [|discriminate].
  apply andb_true_iff in Eg. destruct Eg as [_ Hne]. split; [assumption|].
  destruct (Dict.get "required" (extra field)) as [required|].
  - right. exists required. split; [reflexivity|].
    destruct (subscript _ alias) as [v|e'] eqn:Esub; [discriminate|].
    destruct (subscript_raises _ _ _ Esub) as [->| ->].
    + left. inversion Hrun. auto.
    + right. split; [reflexivity|].
      destruct (truthy required && negb (truthy _)) eqn:Er; [|discriminate].
      apply andb_true_iff in Er. destruct Er as [Hr Hd].
      apply negb_true_iff in Hd. inversion Hrun. auto.
  - left. inversion Hrun. auto.
Qed.

(** X11. A selected string alias that is missing from its non-empty
    mapping, with [required] declared: the validation error, its message
    ending with the alias, when [required] is truthy and the default is
    falsy or not declared; the default (or [None]) otherwise. *)
Theorem get_connection_parameters_missing_alias connection field_name field
    query_params header_params alias selected required :
  Dict.get field_name (path_params connection) = None ->
  Dict.get field_name query_params = None ->
  select_extra (extra field) = Some (VStr alias, selected) ->
  nonempty (source_mapping connection query_params header_params selected)
  = true ->
  Dict.get alias
    (source_mapping connection query_params header_params selected) = None ->
  Dict.get "required" (extra field) = Some required ->
  get_connection_parameters connection field_name field query_params
    header_params
  = let d := match default field with Some d => d | None => VNone end in
    if truthy required && negb (truthy d) then
      Raise (ValidationException ("Missing required parameter " ++ alias))
    else Ok d.
Proof.
  intros Hp Hq Hs Hne Hmiss Hr.
  rewrite (extractor_selected _ _ _ _ _ _ _ Hp Hq Hs).
  apply select_extra_declared in Hs. destruct Hs as [Ht _].
  unfold from_source. rewrite Ht, Hne, Hr. unfold subscript.
  now rewrite Hmiss.
Qed.

End ExtractorFailures.

(** ** Further properties of the kwargs builder *)

Section BuilderFacts.

Variable loads : string -> option Value.
Variables GET JSON MULTI_PART : string.

Local Abbreviation field_value' := (field_value loads GET JSON MULTI_PART).
Local Abbreviation bind_fields' := (bind_fields loads GET JSON MULTI_PART).
Local Abbreviation build' :=
  (get_model_kwargs_from_connection loads GET JSON MULTI_PART).

Lemma build_unfold connection fields w :
  build' connection fields w
  = match parse_query_params connection with
    | Ok query_params =>
        bind_fields' connection query_params (header_dict connection)
          fields [] w
    | Raise e => (Raise e, w)
    end.
Proof.
  unfold get_model_kwargs_from_connection, bind, lift.
  now destruct (parse_query_params connection).
Qed.

(** X12. When the builder returns, the fields [state], [headers],
    [cookies] and [query] hold the application state, the header mapping,
    the cookie mapping and the parsed query mapping of the connection. *)
Theorem builder_binds_connection_mappings connection fields w kwargs w' :
  build' connection fields w = (Ok kwargs, w') ->
  exists query_params,
    parse_query_params connection = Ok query_params
    /\ (Dict.mem "state" fields = true ->
        Dict.get "state" kwargs = Some (VDict (app_state connection)))
    /\ (Dict.mem "headers" fields = true ->
        Dict.get "headers" kwargs = Some (VDict (header_dict connection)))
    /\ (Dict.mem "cookies" fields = true ->
        Dict.get "cookies" kwargs = Some (VDict (cookies connection)))
    /\ (Dict.mem "query" fields = true ->
        Dict.get "query" kwargs = Some (VDict query_params)).
Proof.
  rewrite build_unfold.
  destruct (parse_query_params connection) as [qp|e]; [|discriminate].
  intros Hrun. exists qp. split; [reflexivity|].
  repeat split; intros Hmem;
    match goal with
    | |- Dict.get ?name _ = Some ?v =>
        apply (bind_fields_binds loads GET JSON MULTI_PART connection qp
                 (header_dict connection) name v fields)
          with (kwargs := []) (w := w) (w' := w'); auto;
        intros f w0 v' w1 Hv; unfold field_value in Hv; simpl in Hv;
        now inversion Hv
    end.
Qed.

Lemma bind_fields_pure connection query_params header_params fields :
  forall kwargs w,
  Dict.mem "data" fields = false ->
  snd (bind_fields' connection query_params header_params fields kwargs w) = w.
Proof.
  induction fields as [|[field_name field] rest IH]; intros kwargs w Hmem;
    [reflexivity|].
  rewrite bind_fields_cons.
  unfold Dict.mem in Hmem. cbn [Dict.get] in Hmem.
  destruct (String.eqb "data" field_name) eqn:E; [discriminate|].
  assert (Hne : field_name <> "data").
  { intros ->. now rewrite String.eqb_refl in E. }
  pose proof (field_value_pure loads GET JSON MULTI_PART connection
                query_params header_params field_name field w Hne) as Hpure.
  destruct (field_value' _ _ _ _ _ w) as [[v|e] w1]; simpl in Hpure; subst w1.
  - now apply IH.
  - reflexivity.
Qed.

(** X13. On a field set without a [data] field the builder does no I/O
    and leaves [_json] alone, whether it returns or raises. *)
Theorem builder_without_data_no_io connection fields w :
  Dict.mem "data" fields = false ->
  snd (build' connection fields w) = w.
Proof.
  intros Hmem. rewrite build_unfold.
  destruct (parse_query_params connection); [|reflexivity].
  now apply bind_fields_pure.
Qed.

Lemma bind_fields_lookup connection query_params header_params fields :
  forall kwargs w out w',
  bind_fields' connection query_params header_params fields kwargs w
  = (Ok out, w') ->
  NoDup (Dict.keys fields) ->
  (forall k, ~ In k (Dict.keys fields) -> Dict.get k out = Dict.get k kwargs)
  /\ (forall name field,
        In (name, field) fields ->
        exists v w0 w1,
          field_value' connection query_params header_params name field w0
          = (Ok v, w1)
          /\ Dict.get name out = Some v).
Proof.
  induction fields as [|[field_name field] rest IH];
    intros kwargs w out w' Hrun Hnd.
  - cbn in Hrun. inversion Hrun; subst. split; [reflexivity|].
    intros name field [].
  - rewrite bind_fields_cons in Hrun.
    inversion Hnd as [|? ? Hfresh Hnd']; subst.
    destruct (field_value' _ _ _ _ _ w) as [[v|e] w1] eqn:Ev; [|discriminate].
    destruct (IH _ _ _ _ Hrun Hnd') as [Hkeep Hbound]. split.
    + intros k Hk. simpl in Hk. rewrite Hkeep by tauto.
      apply get_set_other. intros ->. tauto.
    + intros name f [Heq|Hin].
      * inversion Heq; subst. exists v, w, w1. split; [assumption|].
        rewrite (Hkeep name Hfresh). apply get_set_same.
      * now apply Hbound.
Qed.

Lemma field_value_plain connection query_params header_params name field w :
  str_in name reserved_names = false ->
  field_value' connection query_params header_params name field w
  = (get_connection_parameters connection name field query_params
       header_params, w).
Proof.
  unfold str_in, reserved_names. cbn [existsb]. intros H.
  repeat (apply orb_false_iff in H; destruct H as [? H]).
  unfold field_value.
  repeat match goal with
         | E : String.eqb name _ = false |- _ => rewrite E; clear E
         end.
  reflexivity.
Qed.

(** X14. When the builder returns, a field whose name is not reserved holds
    what the extractor gives for it, with the parsed query mapping and the
    header mapping of the connection. *)
Theorem builder_binds_extracted_value connection fields w kwargs w'
    name field :
  build' connection fields w = (Ok kwargs, w') ->
  NoDup (Dict.keys fields) ->
  In (name, field) fields ->
  str_in name reserved_names = false ->
  exists query_params v,
    parse_query_params connection = Ok query_params
    /\ get_connection_parameters connection name field query_params
         (header_dict connection) = Ok v
    /\ Dict.get name kwargs = Some v.
Proof.
  rewrite build_unfold.
  destruct (parse_query_params connection) as [qp|e]; [|discriminate].
  intros Hrun Hnd Hin Hplain.
  apply bind_fields_lookup in Hrun; [|assumption].
  destruct Hrun as [_ Hbound].
  destruct (Hbound name field Hin) as (v & w0 & w1 & Hv & Hget).
  rewrite field_value_plain in Hv by assumption.
  exists qp, v. inversion Hv. auto.
Qed.

Lemma first_seen_fresh l : forall seen,
  NoDup l -> (forall x, In x l -> ~ In x seen) -> first_seen seen l = l.
Proof.
  induction l as [|x rest IH]; intros seen Hnd Hfresh; cbn [first_seen];
    [reflexivity|].
  inversion Hnd as [|? ? Hnotin Hnd']; subst.
  destruct (existsb (String.eqb x) seen) eqn:E.
  - apply existsb_exists in E. destruct E as (y & Hy & Heq).
    apply String.eqb_eq in Heq. subst y.
    exfalso. apply (Hfresh x); [now left | assumption].
  - f_equal. apply IH; [assumption|].
    intros y Hy Hin. apply in_app_iff in Hin. destruct Hin as [Hin|[<-|[]]].
    + apply (Hfresh y); [now right | assumption].
    + contradiction.
Qed.

Lemma bind_fields_key_order connection query_params header_params fields :
  forall kwargs w out w',
  bind_fields' connection query_params header_params fields kwargs w
  = (Ok out, w') ->
  Dict.keys out
  = Dict.keys kwargs ++ first_seen (Dict.keys kwargs) (Dict.keys fields).
Proof.
  induction fields as [|[field_name field] rest IH];
    intros kwargs w out w' Hrun.
  - cbn in Hrun. inversion Hrun; subst. cbn. now rewrite app_nil_r.
  - rewrite bind_fields_cons in Hrun.
    destruct (field_value' _ _ _ _ _ w) as [[v|e] w1]; [|discriminate].
    apply IH in Hrun. rewrite Hrun, keys_set.
    cbn [Dict.keys map fst first_seen].
    change (map fst kwargs) with (Dict.keys kwargs).
    change (map fst rest) with (Dict.keys rest).
    rewrite existsb_keys.
    destruct (Dict.mem field_name kwargs); auto. now rewrite <- app_assoc.
Qed.

(** X15. When the builder returns, the kwargs list the fields in the order
    of the field set. *)
Theorem builder_keeps_field_order connection fields w kwargs w' :
  build' connection fields w = (Ok kwargs, w') ->
  NoDup (Dict.keys fields) ->
  Dict.keys kwargs = Dict.keys fields.
Proof.
  rewrite build_unfold.
  destruct (parse_query_params connection) as [qp|e]; [|discriminate].
  intros Hrun Hnd. apply bind_fields_key_order in Hrun. rewrite Hrun.
  cbn [Dict.keys map app]. apply first_seen_fresh; [assumption|].
  intros x _ [].
Qed.

End BuilderFacts.

(** ** Further properties of the dependency resolver *)

Section ResolverMore.

Variable loads : string -> option Value.
Variables GET JSON MULTI_PART : string.

Local Abbreviation field_value' := (field_value loads GET JSON MULTI_PART).
Local Abbreviation build' :=
  (get_model_kwargs_from_connection loads GET JSON MULTI_PART).
Local Abbreviation resolve' :=
  (resolve_signature_kwargs loads GET JSON MULTI_PART).

Lemma without_nothing {V W : Type} (d : Dict.t V) :
  Dict.without d (@nil (string * W)) = d.
Proof.
  unfold Dict.without. induction d as [|kv rest IH]; [reflexivity|].
  cbn [filter]. unfold Dict.mem at 1. cbn [Dict.get negb]. now rewrite IH.
Qed.

Lemma resolve_dependencies_none resolve fields providers :
  forall dependencies w,
  (forall key provider, In (key, provider) providers ->
                        Dict.mem key fields = false) ->
  resolve_dependencies resolve fields providers dependencies w
  = (Ok dependencies, w).
Proof.
  induction providers as [|[key provider] rest IH]; intros dependencies w Hno;
    [reflexivity|].
  rewrite resolve_dependencies_cons.
  rewrite (Hno key provider) by now left.
  apply IH. intros k p Hin. apply (Hno k p). now right.
Qed.

(** X16. When no provider is named like a field of the signature model,
    the resolver is the kwargs builder on the whole field set: no provider
    is called and no recursive call is made. *)
Theorem resolve_without_dependencies depth signature_model connection
    providers w :
  (forall key provider, In (key, provider) providers ->
                        Dict.mem key (__fields__ signature_model) = false) ->
  resolve' (S depth) signature_model connection providers w
  = build' connection (__fields__ signature_model) w.
Proof.
  intros Hno. rewrite resolve_unfold.
  rewrite resolve_dependencies_none by assumption.
  rewrite without_nothing.
  now destruct (build' _ _ w) as [[kwargs|e] w1].
Qed.

Lemma NoDup_keys_without {V W : Type} (d : Dict.t V) (excluded : Dict.t W) :
  NoDup (Dict.keys d) -> NoDup (Dict.keys (Dict.without d excluded)).
Proof.
  unfold Dict.without, Dict.keys.
  induction d as [|[k v] rest IH]; simpl; intros Hnd; [constructor|].
  inversion Hnd as [|? ? Hnotin Hnd']; subst.
  destruct (negb (Dict.mem k excluded)); simpl; auto.
  constructor; auto. intros Hin. apply Hnotin.
  apply in_map_iff in Hin. destruct Hin as [[k' v'] [Hk Hin]].
  apply filter_In in Hin. apply in_map_iff. exists (k', v'). tauto.
Qed.

(** X17. When the resolver returns, a field for which the provider table
    has no provider holds the value the kwargs builder's dispatch gives
    it. *)
Theorem resolve_binds_connection_value depth signature_model connection
    providers w kwargs w' name field :
  resolve' depth signature_model connection providers w = (Ok kwargs, w') ->
  NoDup (Dict.keys (__fields__ signature_model)) ->
  In (name, field) (__fields__ signature_model) ->
  ~ In name (Dict.keys providers) ->
  exists query_params v w0 w1,
    parse_query_params connection = Ok query_params
    /\ field_value' connection query_params (header_dict connection) name
         field w0 = (Ok v, w1)
    /\ Dict.get name kwargs = Some v.
Proof.
  intros Hrun Hnd Hin Hnone.
  destruct depth as [|depth]; [discriminate|].
  rewrite resolve_unfold in Hrun.
  destruct (resolve_dependencies _ _ _ _ w) as [[dependencies|e] w1] eqn:Ed;
    [|discriminate].
  destruct (build' _ _ w1) as [[ck|e] w2] eqn:Eb; [|discriminate].
  inversion Hrun; subst. clear Hrun.
  pose proof (resolve_dependencies_keys loads GET _ _ _ _ _ _ _ Ed
                (NoDup_nil _)) as [_ Hdeps].
  assert (Hout : ~ In name (Dict.keys dependencies)).
  { rewrite Hdeps. simpl. tauto. }
  rewrite build_unfold in Eb.
  destruct (parse_query_params connection) as [qp|e]; [|discriminate].
  pose proof (bind_fields_lookup _ _ _ _ _ _ _ _ _ _ _ _ Eb
                (NoDup_keys_without _ dependencies Hnd)) as [_ Hbound].
  destruct (Hbound name field) as (v & w0 & w3 & Hv & Hget).
  { unfold Dict.without. apply filter_In. split; [assumption|].
    apply negb_true_iff. now apply mem_false_not_in. }
  exists qp, v, w0, w3. repeat split; auto.
  unfold Dict.merge. rewrite get_set_all_absent; assumption.
Qed.

Lemma resolve_dependencies_mono (resolve1 resolve2 :
    SignatureModel -> M (Dict.t Value)) fields providers :
  (forall model w r w', resolve1 model w = (Ok r, w') ->
                        resolve2 model w = (Ok r, w')) ->
  forall dependencies w out w',
  resolve_dependencies resolve1 fields providers dependencies w = (Ok out, w') ->
  resolve_dependencies resolve2 fields providers dependencies w = (Ok out, w').
Proof.
  intros Hmono.
  induction providers as [|[key provider] rest IH];
    intros dependencies w out w' Hrun; [exact Hrun|].
  rewrite resolve_dependencies_cons in *.
  destruct (Dict.mem key fields); [|now apply IH].
  destruct (resolve1 _ w) as [[pk|e] w1] eqn:E1; [|discriminate].
  rewrite (Hmono _ _ _ _ E1).
  destruct (validated_dict _ pk) as [arguments|e]; [|discriminate].
  destruct (call provider arguments w1) as [[v|e] w2]; [|discriminate].
  now apply IH.
Qed.

Lemma resolve_step_mono depth : forall signature_model connection providers
    w kwargs w',
  resolve' depth signature_model connection providers w = (Ok kwargs, w') ->
  resolve' (S depth) signature_model connection providers w = (Ok kwargs, w').
Proof.
  induction depth as [|depth IH];
    intros signature_model connection providers w kwargs w' Hrun;
    [discriminate|].
  rewrite resolve_unfold in Hrun. rewrite resolve_unfold.
  destruct (resolve_dependencies _ _ _ _ w) as [[dependencies|e] w1] eqn:Ed;
    [|discriminate].
  apply (resolve_dependencies_mono _
           (fun model => resolve' (S depth) model connection providers))
    in Ed.
  - rewrite Ed. exact Hrun.
  - intros model w0 r w0'. apply IH.
Qed.

(** X18. A resolution that returns within some recursion depth returns the
    same kwargs and does the same I/O within any greater depth. *)
Theorem resolve_depth_monotone depth depth' signature_model connection
    providers w kwargs w' :
  depth <= depth' ->
  resolve_signature_kwargs loads GET JSON MULTI_PART depth signature_model
    connection providers w = (Ok kwargs, w') ->
  resolve_signature_kwargs loads GET JSON MULTI_PART depth' signature_model
    connection providers w = (Ok kwargs, w').
Proof.
  induction 1 as [|depth' Hle IH]; intros Hrun; [exact Hrun|].
  apply resolve_step_mono. now apply IH.
Qed.

Lemma last_for_cons {A : Type} key k (v : A) rest :
  last_for key ((k, v) :: rest)
  = match last_for key rest with
    | Some x => Some x
    | None => if String.eqb key k then Some v else None
    end.
Proof.
  unfold last_for, values_for. cbn [filter fst].
  destruct (String.eqb key k).
  - cbn [map snd rev]. now destruct (rev (map snd (filter _ rest))).
  - now destruct (rev (map snd (filter _ rest))).
Qed.

Lemma get_set_all_last {V : Type} (items : list (string * V)) : forall d key,
  Dict.get key (Dict.set_all items d)
  = match last_for key items with
    | Some v => Some v
    | None => Dict.get key d
    end.
Proof.
  induction items as [|[k v] rest IH]; intros d key; [reflexivity|].
  change (Dict.set_all ((k, v) :: rest) d)
    with (Dict.set_all rest (Dict.set k v d)).
  rewrite IH, last_for_cons.
  destruct (last_for key rest); [reflexivity|].
  destruct (String.eqb key k) eqn:E.
  - apply String.eqb_eq in E. subst. apply get_set_same.
  - apply String.eqb_neq in E. now apply get_set_other.
Qed.

(** X19. The header mapping holds, for a header sent several times, the
    value sent last; a header that was not sent is not in it. *)
Theorem header_dict_last_value connection key :
  Dict.get key (header_dict connection)
  = option_map VStr (last_for key (headers connection)).
Proof.
  unfold header_dict, Dict.of_items. rewrite get_set_all_last.
  unfold last_for, values_for. cbn [Dict.get].
  induction (headers connection) as [|[k v] rest IH]; [reflexivity|].
  cbn [map filter fst snd].
  destruct (String.eqb key k); [|exact IH].
  cbn [map snd rev].
  set (vs := map snd (filter _ (map _ rest))) in *.
  set (ws := map snd (filter _ rest)) in *.
  destruct (rev vs) eqn:Ev, (rev ws) eqn:Ew; cbn in *; congruence.
Qed.

End ResolverMore.

(** ** When the query-string parser fails *)

Section QueryParserFailure.





End QueryParserFailure.

(** ** The further properties at sample inputs *)

Section MoreInstances.

Import Samples.

Local Abbreviation request_with qs := (connection_of IsRequest "POST" qs).



Lemma parse_query_params_failure_witness :
  TypeError = TypeError
  /\ exists d, parse_query_params (request_with "a=false&a=1&a=2") = Ok d.
Proof.
  split.
  - exact (proj1 (parse_query_params_failure (request_with "a=true&a=2"))
             TypeError eq_refl).
  - exact (proj2 (parse_query_params_failure
                    (request_with "a=false&a=1&a=2"))
             "a=false&a=1&a=2" eq_refl eq_refl).
Defined.

Lemma parse_query_params_value_shape_witness :
  query_shape (VList [VStr "1"; VBool false]) = true.
Proof.
  exact (parse_query_params_value_shape (request_with "a=1&a=false")
           [("a", VList [VStr "1"; VBool false])] "a"
           (VList [VStr "1"; VBool false]) eq_refl eq_refl).
Defined.


Lemma multipart_values_distinct_keys_witness :
  multipart_values digit_loads
    [("x", FormStr "1"); ("y", FormStr "raw"); ("f", FormFile "a.txt")]
  = [("x", VInt 1); ("y", VStr "raw"); ("f", VUploadFile "a.txt")].
Proof.
  refine (multipart_values_distinct_keys digit_loads
            [("x", FormStr "1"); ("y", FormStr "raw"); ("f", FormFile "a.txt")]
            _).
  repeat constructor; simpl; intuition discriminate.
Defined.

Lemma multipart_values_collects_scalars_witness :
  Dict.get "f"
    (multipart_values digit_loads
       [("f", FormFile "a.txt"); ("g", FormStr "raw"); ("f", FormFile "b.txt")])
  = Some (VList [VUploadFile "a.txt"; VUploadFile "b.txt"]).
Proof.
  exact (multipart_values_collects_scalars digit_loads
           [("f", FormFile "a.txt"); ("g", FormStr "raw");
            ("f", FormFile "b.txt")] "f" eq_refl).
Defined.


Lemma get_connection_parameters_failure_witness :
  get_connection_parameters (request_with "") "n"
    (extras_field [("query", VStr "q")]) [("q", VStr "1")] []
  = Raise (KeyError (VStr "required"))
  /\ Dict.get "n" (path_params (request_with "")) = None
  /\ Dict.get "n" [("q", VStr "1")] = None.
Proof.
  split; [reflexivity|].
  pose proof (get_connection_parameters_failure (request_with "") "n"
                (extras_field [("query", VStr "q")]) [("q", VStr "1")] []
                (KeyError (VStr "required")) eq_refl) as (Hp & Hq & _).
  split; [exact Hp | exact Hq].
Defined.

Lemma get_connection_parameters_missing_alias_witness :
  get_connection_parameters (request_with "") "n" (query_alias_field None)
    [("other", VStr "1")] []
  = Raise (ValidationException "Missing required parameter q")
  /\ get_connection_parameters (request_with "") "n"
       (query_alias_field (Some (VInt 5))) [("other", VStr "1")] []
     = Ok (VInt 5).
Proof.
  split.
  - exact (get_connection_parameters_missing_alias (request_with "") "n"
             (query_alias_field None) [("other", VStr "1")] [] "q" FromQuery
             (VBool true) eq_refl eq_refl eq_refl eq_refl eq_refl eq_refl).
  - exact (get_connection_parameters_missing_alias (request_with "") "n"
             (query_alias_field (Some (VInt 5))) [("other", VStr "1")] []
             "q" FromQuery (VBool true)
             eq_refl eq_refl eq_refl eq_refl eq_refl eq_refl).
Defined.

Lemma builder_binds_connection_mappings_witness :
  Dict.get "headers"
    [("headers", VDict [("h", VStr "from-header")]);
     ("query", VDict [("a", VStr "1")])]
  = Some (VDict (header_dict (request_with "a=1"))).
Proof.
  destruct (builder_binds_connection_mappings digit_loads GET JSON MULTI_PART
              (request_with "a=1")
              [("headers", plain_field); ("query", plain_field)] empty_world
              [("headers", VDict [("h", VStr "from-header")]);
               ("query", VDict [("a", VStr "1")])] empty_world eq_refl)
    as (qp & _ & _ & Hheaders & _).
  exact (Hheaders eq_refl).
Defined.

Lemma builder_without_data_no_io_witness :
  snd (get_model_kwargs_from_connection digit_loads GET JSON MULTI_PART
         websocket [("a", plain_field); ("request", plain_field)]
         {| io_trace := [ReadForm]; _json := Some (VInt 3) |})
  = {| io_trace := [ReadForm]; _json := Some (VInt 3) |}.
Proof.
  exact (builder_without_data_no_io digit_loads GET JSON MULTI_PART websocket
           [("a", plain_field); ("request", plain_field)]
           {| io_trace := [ReadForm]; _json := Some (VInt 3) |} eq_refl).
Defined.

Lemma builder_binds_extracted_value_witness :
  exists query_params v,
    parse_query_params (request_with "a=1") = Ok query_params
    /\ get_connection_parameters (request_with "a=1") "a" plain_field
         query_params (header_dict (request_with "a=1")) = Ok v
    /\ Dict.get "a" [("query", VDict [("a", VStr "1")]); ("a", VStr "1")]
       = Some v.
Proof.
  apply (builder_binds_extracted_value digit_loads GET JSON MULTI_PART
           (request_with "a=1") [("query", plain_field); ("a", plain_field)]
           empty_world
           [("query", VDict [("a", VStr "1")]); ("a", VStr "1")] empty_world
           "a" plain_field).
  - reflexivity.
  - repeat constructor; simpl; intuition discriminate.
  - right. left. reflexivity.
  - reflexivity.
Defined.

Lemma builder_keeps_field_order_witness :
  Dict.keys [("query", VDict [("a", VStr "1")]); ("a", VStr "1")]
  = ["query"; "a"].
Proof.
  refine (builder_keeps_field_order digit_loads GET JSON MULTI_PART
            (request_with "a=1") [("query", plain_field); ("a", plain_field)]
            empty_world
            [("query", VDict [("a", VStr "1")]); ("a", VStr "1")] empty_world
            eq_refl _).
  repeat constructor; simpl; intuition discriminate.
Defined.

Lemma resolve_without_dependencies_witness :
  resolve_signature_kwargs digit_loads GET JSON MULTI_PART 1
    (model_of [("a", plain_field); ("query", plain_field)])
    (request_with "a=1") [("unused", constant_provider (VInt 0))] empty_world
  = get_model_kwargs_from_connection digit_loads GET JSON MULTI_PART
      (request_with "a=1") [("a", plain_field); ("query", plain_field)]
      empty_world.
Proof.
  refine (resolve_without_dependencies digit_loads GET JSON MULTI_PART 0
            (model_of [("a", plain_field); ("query", plain_field)])
            (request_with "a=1") [("unused", constant_provider (VInt 0))]
            empty_world _).
  intros key provider [Heq|[]]. inversion Heq. reflexivity.
Defined.

Lemma resolve_binds_connection_value_witness :
  exists query_params v w0 w1,
    parse_query_params (request_with "a=1") = Ok query_params
    /\ field_value digit_loads GET JSON MULTI_PART (request_with "a=1")
         query_params (header_dict (request_with "a=1")) "a" plain_field w0
       = (Ok v, w1)
    /\ Dict.get "a"
         [("a", VStr "1"); ("data", VStr "provided"); ("dep", VInt 1)]
       = Some v.
Proof.
  apply (resolve_binds_connection_value digit_loads GET JSON MULTI_PART 2
           handler_model (request_with "a=1") provider_table empty_world
           [("a", VStr "1"); ("data", VStr "provided"); ("dep", VInt 1)]
           empty_world "a" plain_field).
  - reflexivity.
  - repeat constructor; simpl; intuition discriminate.
  - left. reflexivity.
  - simpl. intuition discriminate.
Defined.

Lemma resolve_depth_monotone_witness :
  resolve_signature_kwargs digit_loads GET JSON MULTI_PART 7 handler_model
    (request_with "a=1") provider_table empty_world
  = (Ok [("a", VStr "1"); ("data", VStr "provided"); ("dep", VInt 1)],
     empty_world).
Proof.
  refine (resolve_depth_monotone digit_loads GET JSON MULTI_PART 2 7
            handler_model (request_with "a=1") provider_table empty_world
            [("a", VStr "1"); ("data", VStr "provided"); ("dep", VInt 1)]
            empty_world _ eq_refl).
  repeat constructor.
Defined.


End MoreInstances.
